(** * home-retail-etl: the CSV loader [src/load_csv_to_db.py]

    A shallow embedding of the loader's pipeline: file discovery by name,
    CSV parsing, the transactional load and the archival move, together
    with the properties of the pipeline stated in the specification.

    Conventions of the model.
    - A Python [str] is a [string] holding the bytes of its UTF-8
      encoding, the form in which the operating system keeps a file name
      and in which the script reads a file.  [chars] cuts such a string
      into its characters.  Which characters beyond ASCII are decimal
      digits is decided by the Unicode database of the interpreter, which
      the environment of a run supplies.  [str.strip] is modelled on the
      ASCII blanks.
    - A CSV file is given by the rows that [csv.reader] yields for it
      (decoding and tokenisation belong to the [io] and [csv] libraries).
    - What the script prints is recorded as a list of structured messages,
      one constructor per [print] call of the source.
    - Exceptions are values of type [exn]; an operation returns a
      [result] together with the new [world]. *)

From Stdlib Require Import Ascii String ZArith Lia.
From stdpp Require Import base list strings gmap numbers.

(** ** Characters and strings *)

(** The ASCII digits and their values. *)
Definition is_digit (c : ascii) : bool :=
  ((48 <=? N_of_ascii c) && (N_of_ascii c <=? 57))%N.

Definition digit_value (c : ascii) : Z := (Z.of_N (N_of_ascii c) - 48)%Z.

(** *** The characters of a string

    A character is a well-formed UTF-8 sequence of one to four bytes: the
    ranges below are those of the Unicode standard (no overlong form, no
    surrogate, nothing above U+10FFFF).  A byte that starts no well-formed
    sequence counts as a character of its own, as it does when Python
    decodes a file name ([surrogateescape]): such a character is neither a
    digit nor an ASCII character. *)

Definition byte_in (lo hi : N) (b : ascii) : bool :=
  ((lo <=? N_of_ascii b) && (N_of_ascii b <=? hi))%N.

Definition continuation (b : ascii) : bool := byte_in 128 191 b.

(** The well-formed sequences of two, three and four bytes. *)
Definition two_bytes (b c1 : ascii) : bool :=
  byte_in 194 223 b && continuation c1.

Definition three_bytes (b c1 c2 : ascii) : bool :=
  (byte_in 224 224 b && byte_in 160 191 c1
   || byte_in 225 236 b && continuation c1
   || byte_in 237 237 b && byte_in 128 159 c1
   || byte_in 238 239 b && continuation c1)
  && continuation c2.

Definition four_bytes (b c1 c2 c3 : ascii) : bool :=
  (byte_in 240 240 b && byte_in 144 191 c1
   || byte_in 241 243 b && continuation c1
   || byte_in 244 244 b && byte_in 128 143 c1)
  && continuation c2 && continuation c3.

(** The characters of a string, in order. *)
Fixpoint chars (s : string) : list string :=
  match s with
  | EmptyString => []
  | String b s1 =>
      match s1 with
      | String c1 s2 =>
          if two_bytes b c1 then String b (String c1 "") :: chars s2
          else
            match s2 with
            | String c2 s3 =>
                if three_bytes b c1 c2
                then String b (String c1 (String c2 "")) :: chars s3
                else
                  match s3 with
                  | String c3 s4 =>
                      if four_bytes b c1 c2 c3
                      then String b (String c1 (String c2 (String c3 "")))
                             :: chars s4
                      else String b "" :: chars s1
                  | EmptyString => String b "" :: chars s1
                  end
            | EmptyString => String b "" :: chars s1
            end
      | EmptyString => [String b ""]
      end
  end.

(** The string made of the characters [cs]. *)
Definition join (cs : list string) : string := foldr String.append "" cs.

Definition newline : string := String "010"%char EmptyString.

(** The end of a matching name: the literal [.csv] and then the end of the
    string; without [re.MULTILINE], [$] also matches just before a final
    newline. *)
Definition end_of_name (s : string) : bool :=
  bool_decide (s = ".csv") || bool_decide (s = ".csv" +:+ newline).

(** ** The file system

    The data directory is the list of its entries in the order
    [data_dir.iterdir()] yields them.  The processed area
    [data_dir / "processed"] is one of these entries. *)

Inductive node : Type :=
  | RegularFile (rows : list (list string))
  | Directory (children : list entry)
  | Other
with entry : Type :=
  | Entry (name : string) (content : node).

Definition name (e : entry) : string := let 'Entry n _ := e in n.
Definition content (e : entry) : node := let 'Entry _ c := e in c.

(** [entry.is_file()] *)
Definition is_file (e : entry) : bool :=
  match content e with RegularFile _ => true | _ => false end.

(** The first entry of a directory listing with the given name. *)
Fixpoint lookup_entry (p : string) (entries : list entry) : option node :=
  match entries with
  | [] => None
  | e :: entries' =>
      if bool_decide (name e = p) then Some (content e)
      else lookup_entry p entries'
  end.

(** Unlinking a name from a directory. *)
Definition remove_entry (p : string) (entries : list entry) : list entry :=
  filter (λ e, name e ≠ p) entries.

(** Replacing what a name denotes, in place; appended when absent. *)
Fixpoint put_entry (p : string) (c : node) (entries : list entry) : list entry :=
  match entries with
  | [] => [Entry p c]
  | e :: entries' =>
      if bool_decide (name e = p) then Entry p c :: entries'
      else e :: put_entry p c entries'
  end.

(** ** Records, exceptions, messages *)

(** A [decimal.Decimal]: sign, coefficient and exponent, or a special
    value. *)
Inductive Decimal : Type :=
  | Dec (negative : bool) (coefficient : N) (exponent : Z)
  | DecInfinity (negative : bool)
  | DecNaN.

(** The tuple [read_csv_file] builds for one data row, in the column order
    of the [INSERT] statement of [insert_rows]. *)
Record sales_row : Type := SalesRow {
  doc_id : string;
  item : string;
  category : string;
  amount : Z;
  price : Decimal;
  discount : Decimal;
  shop_num : Z;
  cash_num : Z;
  file_name : string
}.

Inductive exn : Type :=
  | KeyError (key : string)
  | AttributeError                    (* [None.strip()] *)
  | TypeError                         (* [int(None)], [Decimal(None)] *)
  | ValueError_int (text : string)    (* [int] on a malformed literal *)
  | InvalidOperation (text : string)  (* [Decimal] on a malformed literal *)
  | ValueError_columns (file : string)
      (* "Файл {filepath.name} не содержит всех нужных колонок: ..." *)
  | ValueError_row (line_num : nat) (file : string) (cause : exn)
      (* "Ошибка парсинга строки {line_num} в файле {filepath.name}: {exc}" *)
  | AssertionError
  | DatabaseError (msg : string)      (* any [psycopg2.Error] *)
  | OSError (msg : string)
  | FileExistsError (path : string)
  | FileNotFoundError (path : string)
  | IsADirectoryError (path : string)
  | RuntimeError (msg : string).

(** One constructor per [print] call of the source. *)
Inductive message : Type :=
  | Skipping (name : string)
      (* "Пропускаю файл с неподходящим именем: {entry.name}" *)
  | NoFiles
      (* "В папке {data_dir} нет файлов для обработки." *)
  | Found (n : nat)
      (* "Найдено файлов для обработки: {len(files)}" *)
  | Processing (name : string) (shop_num cash_num : Z)
      (* "Обрабатываю файл {filepath.name} (магазин ..., касса ...)..." *)
  | RowsToLoad (n : nat)
      (* "  строк для загрузки: {len(rows)}" *)
  | DryRunNote
      (* "  Режим dry-run: в БД не загружаем, файл не перемещаем." *)
  | Moved (name : string)
      (* "Файл {filepath.name} перемещён в {target}" *)
  | LoadError (name : string) (exc : exn)
      (* "  ОШИБКА при загрузке файла {filepath.name}: {exc}" *)
  | DryRunStart
      (* "Запуск в режиме dry-run (без подключения к БД)..." *)
  | ConnectionOpened
      (* "Подключение к БД установлено." *)
  | ConnectionClosed.
      (* "Подключение к БД закрыто." *)

(** ** The database and the world

    Table [public.sales] as seen through the one connection of a run:
    [committed] holds the rows visible to everyone, [pending] the rows
    inserted by the transaction in progress. *)
Record database : Type := Database {
  committed : list sales_row;
  pending : list sales_row
}.

Record world : Type := World {
  fs : list entry;
  db : database;
  stdout : list message
}.

Definition set_fs (f : list entry) (w : world) : world :=
  World f (db w) (stdout w).
Definition set_db (d : database) (w : world) : world :=
  World (fs w) d (stdout w).

(** The handle [psycopg2.connect] returns. *)
Inductive PgConnection : Type := Connection.

(** The two system calls of [move_file_to_processed]. *)
Inductive syscall : Type :=
  | Mkdir (path : string)
  | Rename (src : string).

(** ** Results and the state-and-exception monad *)

Inductive result (A : Type) : Type :=
  | Ok (a : A)
  | Raise (e : exn).
Arguments Ok {A} a.
Arguments Raise {A} e.

#[global] Instance result_ret : MRet result := λ A a, Ok a.
#[global] Instance result_bind : MBind result := λ A B f r,
  match r with Ok a => f a | Raise e => Raise e end.

Definition M (A : Type) : Type := world → result A * world.

Definition ret {A} (a : A) : M A := λ w, (Ok a, w).
Definition raise {A} (e : exn) : M A := λ w, (Raise e, w).
Definition bind {A B} (m : M A) (k : A → M B) : M B := λ w,
  match m w with
  | (Ok a, w') => k a w'
  | (Raise e, w') => (Raise e, w')
  end.
Definition lift {A} (r : result A) : M A := λ w, (r, w).

(** [try: body except Exception as exc: handler(exc)] *)
Definition try_except {A} (body : M A) (handler : exn → M A) : M A := λ w,
  match body w with
  | (Ok a, w') => (Ok a, w')
  | (Raise e, w') => handler e w'
  end.

(** The world once one more message is on the console. *)
Definition printed (m : message) (w : world) : world :=
  World (fs w) (db w) (stdout w ++ [m]).

Definition print (m : message) : M () := λ w, (Ok (), printed m w).

Declare Scope prog_scope.
Delimit Scope prog_scope with prog.
Notation "x <- c1 ;; c2" := (bind c1 (λ x, c2))
  (at level 100, c1 at next level, right associativity) : prog_scope.
Notation "c1 ;; c2" := (bind c1 (λ _, c2))
  (at level 100, right associativity) : prog_scope.
Local Open Scope prog_scope.

(** ** [str.strip()] *)

Definition is_space (c : ascii) : bool :=
  let n := N_of_ascii c in
  ((9 <=? n) && (n <=? 13) || (28 <=? n) && (n <=? 32))%N.

Fixpoint lstrip (s : string) : string :=
  match s with
  | EmptyString => EmptyString
  | String c s' => if is_space c then lstrip s' else s
  end.

Fixpoint rstrip (s : string) : string :=
  match s with
  | EmptyString => EmptyString
  | String c s' =>
      match rstrip s' with
      | EmptyString => if is_space c then EmptyString else String c EmptyString
      | r => String c r
      end
  end.

Definition strip (s : string) : string := rstrip (lstrip s).

(** ** [csv.DictReader]

    The header is the first row the underlying reader yields, if any;
    every later row that is not empty becomes a dictionary.  A value is
    [Some] text, or [None] for a column the row is too short to fill
    ([restval]).  The dictionary of the model has the column names as its
    keys.  The entry Python adds under the key [None] for the cells
    beyond the last column ([restkey]) is left out of it: no lookup by a
    column name reaches that entry, and the script makes no other use of
    a row. *)

Definition fieldnames (csv : list (list string)) : option (list string) :=
  head csv.

(** [dict(zip(fieldnames, row))]: a later pair overrides an earlier one. *)
Fixpoint dict_zip (keys vals : list string) (d : gmap string (option string))
    : gmap string (option string) :=
  match keys, vals with
  | k :: keys', v :: vals' => dict_zip keys' vals' (<[k := Some v]> d)
  | _, _ => d
  end.

Definition DictReader_row (fields row : list string)
    : gmap string (option string) :=
  let d := dict_zip fields row ∅ in
  if (length row <? length fields)%nat
  then foldl (λ d k, <[k := None]> d) d (drop (length row) fields)
  else d.

(** The rows the [DictReader] iterates over: blank rows are passed over. *)
Definition DictReader_rows (csv : list (list string)) : list (list string) :=
  filter (λ row, row ≠ []) (tail csv).

Definition required_fields : list string :=
  ["doc_id"; "item"; "category"; "amount"; "price"; "discount"].

(** [required_fields.issubset(names)] *)
Definition issubset (required names : list string) : bool :=
  forallb (λ k, bool_decide (k ∈ names)) required.

(** [row[key]] *)
Definition getitem (d : gmap string (option string)) (key : string)
    : result (option string) :=
  match d !! key with
  | Some v => Ok v
  | None => Raise (KeyError key)
  end.

(** [v.strip()] on a cell *)
Definition cell_strip (v : option string) : result string :=
  match v with
  | Some s => Ok (strip s)
  | None => Raise AttributeError
  end.

(** ** The environment of a run

    What the pipeline takes from outside the script. *)
Class Environment : Type := {
  (** The decimal digits beyond ASCII (the characters of category [Nd] in
      the Unicode database of the interpreter, which [\d] matches and
      [int] reads): the value, 0 to 9, of a character given by its UTF-8
      encoding, [None] for a character that is no decimal digit. *)
  unicode_decimal : string → option N;
  (** [int(s)] and [Decimal(s)] on a string: [None] when the literal is
      rejected. *)
  int_of_str : string → option Z;
  Decimal_of_str : string → option Decimal;
  (** The server's verdict on one [INSERT] and on [COMMIT], given the state
      of the table: [Some msg] is an error (a violated constraint, a lost
      connection). *)
  insert_error : database → sales_row → option string;
  commit_error : database → option string;
  (** The operating system's verdict on a system call, beyond the checks
      the model performs on the directory itself. *)
  os_error : syscall → list entry → option string;
  (** [data_dir.exists()], and what [get_db_connection] returns or raises
      once [load_env] has read the configuration. *)
  data_dir_exists : bool;
  get_db_connection : result PgConnection
}.

Section Pipeline.

Context {env : Environment}.

Definition cell_int (v : option string) : result Z :=
  match v with
  | None => Raise TypeError
  | Some s =>
      match int_of_str s with
      | Some n => Ok n
      | None => Raise (ValueError_int s)
      end
  end.

Definition cell_Decimal (v : option string) : result Decimal :=
  match v with
  | None => Raise TypeError
  | Some s =>
      match Decimal_of_str s with
      | Some x => Ok x
      | None => Raise (InvalidOperation s)
      end
  end.

(** The body of the [try] in [read_csv_file]: the six conversions, in the
    order of the source, and then the tuple. *)
Definition convert_row (row : gmap string (option string))
    (shop_num cash_num : Z) (file : string) : result sales_row :=
  doc_id ← getitem row "doc_id" ≫= cell_strip;
  item ← getitem row "item" ≫= cell_strip;
  category ← getitem row "category" ≫= cell_strip;
  amount ← getitem row "amount" ≫= cell_int;
  price ← getitem row "price" ≫= cell_Decimal;
  discount ← getitem row "discount" ≫= cell_Decimal;
  mret (SalesRow doc_id item category amount price discount
                 shop_num cash_num file).

(** The [for line_num, row in enumerate(reader, start=2)] loop. *)
Fixpoint read_rows (fields : list string) (shop_num cash_num : Z)
    (file : string) (line_num : nat) (reader : list (list string))
    (rows : list sales_row) : result (list sales_row) :=
  match reader with
  | [] => Ok rows
  | row :: reader' =>
      match convert_row (DictReader_row fields row) shop_num cash_num file with
      | Raise exc => Raise (ValueError_row line_num file exc)
      | Ok r =>
          read_rows fields shop_num cash_num file (S line_num) reader'
                    (rows ++ [r])
      end
  end.

(** What [read_csv_file] does once the file is open. *)
Definition parse_csv (csv : list (list string)) (shop_num cash_num : Z)
    (file : string) : result (list sales_row) :=
  if negb (issubset required_fields (default [] (fieldnames csv)))
  then Raise (ValueError_columns file)
  else read_rows (default [] (fieldnames csv)) shop_num cash_num file 2
                 (DictReader_rows csv) [].

(** [filepath.open("r", ...)] and the rows the reader will yield. *)
Definition open_file (filepath : string) (entries : list entry)
    : result (list (list string)) :=
  match lookup_entry filepath entries with
  | Some (RegularFile csv) => Ok csv
  | Some (Directory _) => Raise (IsADirectoryError filepath)
  | Some Other => Raise (OSError "open")
  | None => Raise (FileNotFoundError filepath)
  end.

Definition read_csv_file (filepath : string) (shop_num cash_num : Z)
    : M (list sales_row) := λ w,
  (csv ← open_file filepath (fs w);
   parse_csv csv shop_num cash_num filepath, w).

(** *** FILENAME_PATTERN

    [FILENAME_PATTERN = re.compile(r"^(\d+)_(\d+)\.csv$")], used through
    [FILENAME_PATTERN.match(entry.name)].  The pattern is a [str] pattern:
    [\d] matches any decimal digit character, the ASCII digits and those
    of other scripts. *)

(** The value of a decimal digit character, [None] for any other
    string. *)
Definition decimal_value (c : string) : option N :=
  match c with
  | String b EmptyString =>
      if is_digit b then Some (N_of_ascii b - 48)%N else None
  | _ => if bool_decide (chars c = [c]) then unicode_decimal c else None
  end.

Definition is_decimal (c : string) : bool :=
  bool_decide (is_Some (decimal_value c)).

(** A string made of decimal digits only. *)
Definition all_digits (s : string) : bool := forallb is_decimal (chars s).

(** [int(s)] for a string of decimal digits, as [find_csv_files] applies it
    to the groups of a match: most significant digit first. *)
Fixpoint int_digits_from (acc : Z) (cs : list string) : Z :=
  match cs with
  | [] => acc
  | c :: cs' =>
      int_digits_from (10 * acc + Z.of_N (default 0%N (decimal_value c)))%Z cs'
  end.

Definition int_digits (s : string) : Z := int_digits_from 0%Z (chars s).

(** The longest prefix of digits, and what follows it: a greedy [\d*]. *)
Fixpoint span_digits (cs : list string) : list string * list string :=
  match cs with
  | [] => ([], [])
  | c :: cs' =>
      if is_decimal c
      then let (ds, rest) := span_digits cs' in (c :: ds, rest)
      else ([], cs)
  end.

(** [match_groups] is the language of the pattern: two non-empty digit
    groups, an underscore between them, the literal [.csv], and then the
    end of the string or a final newline. *)
Definition match_groups (name g1 g2 : string) : Prop :=
  g1 ≠ "" ∧ all_digits g1 = true ∧ g2 ≠ "" ∧ all_digits g2 = true ∧
  (name = g1 +:+ "_" +:+ g2 +:+ ".csv" ∨
   name = g1 +:+ "_" +:+ g2 +:+ ".csv" +:+ newline).

(** The matcher: what [FILENAME_PATTERN.match] computes, scanning the
    characters of the name from its start.  [Some (g1, g2)] are
    [match.group(1)] and [match.group(2)]; [None] is Python's "no match". *)
Definition FILENAME_PATTERN_match (name : string) : option (string * string) :=
  let (d1, r1) := span_digits (chars name) in
  match d1, r1 with
  | _ :: _, u :: r2 =>
      if bool_decide (u = "_")
      then
        let (d2, r3) := span_digits r2 in
        match d2 with
        | _ :: _ =>
            if end_of_name (join r3) then Some (join d1, join d2) else None
        | [] => None
        end
      else None
  | _, _ => None
  end.

(** *** [find_csv_files] *)

(** The [for entry in data_dir.iterdir()] loop. *)
Fixpoint find_loop (entries : list entry) (result : list (string * Z * Z))
    : M (list (string * Z * Z)) :=
  match entries with
  | [] => ret result
  | entry :: entries' =>
      if negb (is_file entry) then find_loop entries' result
      else
        match FILENAME_PATTERN_match (name entry) with
        | None =>
            print (Skipping (name entry)) ;;
            find_loop entries' result
        | Some (g1, g2) =>
            let shop_num := int_digits g1 in
            let cash_num := int_digits g2 in
            find_loop entries' (result ++ [(name entry, shop_num, cash_num)])
        end
  end.

Definition find_csv_files : M (list (string * Z * Z)) := λ w,
  find_loop (fs w) [] w.

(** *** [insert_rows] *)

Fixpoint for_each {A} (body : A → M ()) (l : list A) : M () :=
  match l with
  | [] => ret ()
  | x :: l' => body x ;; for_each body l'
  end.

(** [psycopg2.extras._paginate]: [page] is the page being filled and
    [room] the number of items it still takes.  The page size is
    positive (the source passes 1000). *)
Fixpoint paginate_from {A} (page_size : nat) (page : list A) (room : nat)
    (seq : list A) : list (list A) :=
  match seq with
  | [] => match page with [] => [] | _ => [page] end
  | x :: seq' =>
      match room with
      | S (S room') => paginate_from page_size (page ++ [x]) (S room') seq'
      | _ => (page ++ [x]) :: paginate_from page_size [] page_size seq'
      end
  end.

Definition paginate {A} (seq : list A) (page_size : nat) : list (list A) :=
  paginate_from page_size [] page_size seq.

(** One [INSERT] statement, executed inside the transaction in progress. *)
Definition insert_one (r : sales_row) : M () := λ w,
  match insert_error (db w) r with
  | Some msg => (Raise (DatabaseError msg), w)
  | None =>
      (Ok (), set_db (Database (committed (db w)) (pending (db w) ++ [r])) w)
  end.

(** [cur.execute] on the statements of one page, joined by [;]. *)
Definition execute (page : list sales_row) : M () :=
  for_each insert_one page.

Definition execute_batch (argslist : list sales_row) (page_size : nat)
    : M () :=
  for_each execute (paginate argslist page_size).

Definition insert_rows (conn : PgConnection) (rows : list sales_row) : M () :=
  execute_batch rows 1000.

(** *** [with conn:] *)

Definition commit : M () := λ w,
  match commit_error (db w) with
  | Some msg =>
      (Raise (DatabaseError msg), set_db (Database (committed (db w)) []) w)
  | None =>
      (Ok (),
       set_db (Database (committed (db w) ++ pending (db w)) []) w)
  end.

Definition rollback (w : world) : world :=
  set_db (Database (committed (db w)) []) w.

(** The connection as a context manager: [commit] when the body ends
    normally, [rollback] when it raises, and the exception goes on. *)
Definition with_conn (conn : PgConnection) (body : M ()) : M () := λ w,
  match body w with
  | (Ok _, w') => commit w'
  | (Raise e, w') => (Raise e, rollback w')
  end.

(** *** [move_file_to_processed] *)

(** [processed_dir.mkdir(parents=True, exist_ok=True)] *)
Definition mkdir (p : string) : M () := λ w,
  match os_error (Mkdir p) (fs w) with
  | Some msg => (Raise (OSError msg), w)
  | None =>
      match lookup_entry p (fs w) with
      | None => (Ok (), set_fs (fs w ++ [Entry p (Directory [])]) w)
      | Some (Directory _) => (Ok (), w)
      | Some _ => (Raise (FileExistsError p), w)
      end
  end.

(** [filepath.rename(processed_dir / filepath.name)]: the file leaves the
    data directory and enters [dir] under its own name, replacing a file
    of that name there. *)
Definition rename (src dir : string) : M () := λ w,
  match os_error (Rename src) (fs w) with
  | Some msg => (Raise (OSError msg), w)
  | None =>
      match lookup_entry src (fs w), lookup_entry dir (fs w) with
      | None, _ => (Raise (FileNotFoundError src), w)
      | Some c, Some (Directory children) =>
          match lookup_entry src children with
          | Some (Directory _) => (Raise (IsADirectoryError src), w)
          | _ =>
              (Ok (),
               set_fs (put_entry dir (Directory (put_entry src c children))
                                 (remove_entry src (fs w))) w)
          end
      | Some _, _ => (Raise (FileNotFoundError dir), w)
      end
  end.

Definition move_file_to_processed (filepath processed_dir : string) : M () :=
  mkdir processed_dir ;;
  rename filepath processed_dir ;;
  print (Moved filepath).

(** *** [process_files] *)

(** The body of the [for filepath, shop_num, cash_num in files] loop. *)
Definition process_file (conn : option PgConnection) (dry_run : bool)
    (f : string * Z * Z) : M () :=
  let '(filepath, shop_num, cash_num) := f in
  print (Processing filepath shop_num cash_num) ;;
  rows <- read_csv_file filepath shop_num cash_num ;;
  print (RowsToLoad (length rows)) ;;
  if dry_run then print DryRunNote
  else
    match conn with
    | None => raise AssertionError
    | Some conn =>
        try_except
          (with_conn conn (insert_rows conn rows) ;;
           move_file_to_processed filepath "processed")
          (λ exc, print (LoadError filepath exc))
    end.

Definition process_files (conn : option PgConnection) (dry_run : bool)
    : M () :=
  files <- find_csv_files ;;
  match files with
  | [] => print NoFiles
  | _ =>
      print (Found (length files)) ;;
      for_each (process_file conn dry_run) files
  end.

(** *** [main] *)

(** [conn.close()]: a transaction still in progress is lost. *)
Definition close (conn : PgConnection) : M () := λ w, (Ok (), rollback w).

(** [try: body finally: cleanup] *)
Definition try_finally {A} (body : M A) (cleanup : M ()) : M A := λ w,
  match body w with
  | (r, w') =>
      match cleanup w' with
      | (Ok _, w'') => (r, w'')
      | (Raise e, w'') => (Raise e, w'')
      end
  end.

Definition main (data_dir : string) (dry_run : bool) : M () :=
  if negb data_dir_exists then raise (FileNotFoundError data_dir)
  else if dry_run then
    print DryRunStart ;;
    process_files None true
  else
    conn <- lift get_db_connection ;;
    print ConnectionOpened ;;
    try_finally (process_files (Some conn) false)
                (close conn ;; print ConnectionClosed).

End Pipeline.

(** ** A concrete environment

    Instances of the environment's functions, for evaluating the pipeline
    on concrete inputs. *)

(** [int(s)] on ASCII text: blanks around, an optional sign, then digits,
    where single underscores may separate digits. *)
Fixpoint digits_with_underscores (after_digit : bool) (acc : Z) (s : string)
    : option Z :=
  match s with
  | EmptyString => if after_digit then Some acc else None
  | String c s' =>
      if is_digit c
      then digits_with_underscores true (10 * acc + digit_value c)%Z s'
      else if bool_decide (c = "_"%char) && after_digit
      then digits_with_underscores false acc s'
      else None
  end.

Definition ascii_int (s : string) : option Z :=
  match strip s with
  | String "-"%char s' => Z.opp <$> digits_with_underscores false 0%Z s'
  | String "+"%char s' => digits_with_underscores false 0%Z s'
  | s' => digits_with_underscores false 0%Z s'
  end.

(** [Decimal(s)] on the plain notation: blanks around, an optional sign,
    digits with at most one decimal point and at least one digit.  The
    other literals [Decimal] accepts (exponents, underscores, infinities,
    NaNs) are not recognised by this instance. *)
Fixpoint plain_digits (seen_digit : bool) (point : option Z) (acc : N)
    (s : string) : option (N * Z) :=
  match s with
  | EmptyString =>
      if seen_digit then Some (acc, default 0%Z point) else None
  | String c s' =>
      if is_digit c
      then plain_digits true (Z.pred <$> point)
                        (10 * acc + Z.to_N (digit_value c))%N s'
      else if bool_decide (c = "."%char)
      then match point with
           | None => plain_digits seen_digit (Some 0%Z) acc s'
           | Some _ => None
           end
      else None
  end.

Definition plain_Decimal (s : string) : option Decimal :=
  match strip s with
  | String "-"%char s' =>
      (λ '(c, e), Dec true c e) <$> plain_digits false None 0%N s'
  | String "+"%char s' =>
      (λ '(c, e), Dec false c e) <$> plain_digits false None 0%N s'
  | s' => (λ '(c, e), Dec false c e) <$> plain_digits false None 0%N s'
  end.

(** An excerpt of the decimal digits beyond ASCII: the ARABIC-INDIC digits
    (U+0660 to U+0669), the EXTENDED ARABIC-INDIC digits (U+06F0 to U+06F9),
    the DEVANAGARI digits (U+0966 to U+096F) and the FULLWIDTH digits
    (U+FF10 to U+FF19), by their UTF-8 encodings.  The other scripts are
    absent from this instance. *)
Definition some_unicode_decimals (c : string) : option N :=
  match c with
  | String b1 (String b2 EmptyString) =>
      let n1 := N_of_ascii b1 in
      let n2 := N_of_ascii b2 in
      if (n1 =? 217) && (160 <=? n2) && (n2 <=? 169) then Some (n2 - 160)
      else if (n1 =? 219) && (176 <=? n2) && (n2 <=? 185) then Some (n2 - 176)
      else None
  | String b1 (String b2 (String b3 EmptyString)) =>
      let n1 := N_of_ascii b1 in
      let n2 := N_of_ascii b2 in
      let n3 := N_of_ascii b3 in
      if (n1 =? 224) && (n2 =? 165) && (166 <=? n3) && (n3 <=? 175)
      then Some (n3 - 166)
      else if (n1 =? 239) && (n2 =? 188) && (144 <=? n3) && (n3 <=? 153)
      then Some (n3 - 144)
      else None
  | _ => None
  end%N.

(** A server that never fails, and one with a [CHECK (amount >= 0)]
    constraint on the table. *)
Definition no_insert_error : database → sales_row → option string :=
  λ _ _, None.
Definition no_commit_error : database → option string := λ _, None.
Definition check_amount : database → sales_row → option string :=
  λ _ r, if (amount r <? 0)%Z then Some "check constraint" else None.

(** An operating system that never refuses, and one that refuses every
    rename. *)
Definition no_os_error : syscall → list entry → option string := λ _ _, None.
Definition rename_denied : syscall → list entry → option string :=
  λ call _, match call with Rename _ => Some "permission denied" | _ => None end.

Definition reliable : Environment :=
  Build_Environment some_unicode_decimals ascii_int plain_Decimal
                    no_insert_error no_commit_error
                    no_os_error true (Ok Connection).

Definition constrained : Environment :=
  Build_Environment some_unicode_decimals ascii_int plain_Decimal
                    check_amount no_commit_error
                    no_os_error true (Ok Connection).

Definition read_only_directory : Environment :=
  Build_Environment some_unicode_decimals ascii_int plain_Decimal
                    no_insert_error no_commit_error
                    rename_denied true (Ok Connection).

Definition header : list string :=
  ["doc_id"; "item"; "category"; "amount"; "price"; "discount"].

Definition initial_world (entries : list entry) : world :=
  World entries (Database [] []) [].


(** ** Views of a directory listing

    What [find_csv_files] makes of a single entry: the triple it appends
    for an accepted file, the note it prints for a file it passes over. *)

Definition accepted {env : Environment} (e : entry) : option (string * Z * Z) :=
  if is_file e
  then (λ '(g1, g2), (name e, int_digits g1, int_digits g2))
         <$> FILENAME_PATTERN_match (name e)
  else None.

Definition skip_note {env : Environment} (e : entry) : option message :=
  if is_file e
  then match FILENAME_PATTERN_match (name e) with
       | None => Some (Skipping (name e))
       | Some _ => None
       end
  else None.

(** A list of characters that does not start with a digit. *)
Definition stops_digits {env : Environment} (cs : list string) : Prop :=
  match cs with
  | [] => True
  | c :: _ => is_decimal c = false
  end.

(** The world once [find_csv_files] has listed the directory. *)
Definition listed {env : Environment} (w : world) : world :=
  World (fs w) (db w) (stdout w ++ omap skip_note (fs w)).

(** The processed area can take a file named [p]: it is absent or a
    directory, and holds no directory named [p]. *)
Definition processed_area_ready (p : string) (entries : list entry) : Prop :=
  match lookup_entry "processed" entries with
  | None => True
  | Some (Directory children) =>
      match lookup_entry p children with
      | Some (Directory _) => False
      | _ => True
      end
  | Some _ => False
  end.

(** A record whose shop and till numbers are the ones its file name
    spells. *)
Definition stamped_by_name {env : Environment} (r : sales_row) : Prop :=
  ∃ g1 g2, match_groups (file_name r) g1 g2 ∧
           shop_num r = int_digits g1 ∧ cash_num r = int_digits g2.

(** The reading of the acceptance rule under which it speaks of every
    entry of the directory, whatever its kind: the entry is among the
    files [find_csv_files] returns exactly when its name matches the
    pattern. *)
Definition accepts_every_entry_by_name {env : Environment} : Prop :=
  ∀ (w w0 : world) (files : list (string * Z * Z)) (e : entry),
    e ∈ fs w →
    find_csv_files w = (Ok files, w0) →
    (∃ shop cash, (name e, shop, cash) ∈ files) ↔
    (∃ g1 g2, match_groups (name e) g1 g2).

(** The reading of the line numbers under which the data rows are counted
    from 1, the header left out: whenever the conversion of the data row
    of 0-based position [k] raises, the error carries the number [k + 1]. *)
Definition reports_data_row_index `{Environment} : Prop :=
  ∀ (p : string) (shop cash : Z) (csv : list (list string)) (w : world)
    (k : nat) (row : list string),
    lookup_entry p (fs w) = Some (RegularFile csv) →
    (∀ f, f ∈ required_fields → f ∈ default [] (fieldnames csv)) →
    DictReader_rows csv !! k = Some row →
    (∃ e, convert_row (DictReader_row (default [] (fieldnames csv)) row)
            shop cash p = Raise e) →
    ∃ exc, read_csv_file p shop cash w =
             (Raise (ValueError_row (S k) p exc), w).

(** ** Sample inputs *)

Definition towel : list string :=
  ["ABC123"; "Towel"; "textile"; "2"; "199.99"; "0.00"].

Definition towel_row : sales_row :=
  SalesRow "ABC123" "Towel" "textile" 2 (Dec false 19999 (-2))
           (Dec false 0 (-2)) 3 2 "3_2.csv".

(** A directory with a stray file, a good export, an export whose header
    lacks [category], and one more export. *)
Definition mixed_directory : list entry :=
  [Entry "notes.txt" (RegularFile []);
   Entry "3_2.csv" (RegularFile [header; towel]);
   Entry "9_1.csv"
     (RegularFile [["doc_id"; "item"; "amount"; "price"; "discount"];
                   ["A"; "B"; "1"; "2"; "3"]]);
   Entry "4_1.csv" (RegularFile [header; ["X"; " Y "; "c"; "1"; "5"; "0"]])].

(** An export with a returned item, and an empty export after it. *)
Definition returns_directory : list entry :=
  [Entry "4_1.csv" (RegularFile [header; ["X"; " Y "; "c"; "-1"; "5"; "0"]]);
   Entry "5_1.csv" (RegularFile [header])].

Definition returned_row : sales_row :=
  SalesRow "X" "Y" "c" (-1) (Dec false 5 0) (Dec false 0 0) 4 1 "4_1.csv".

(** An export whose only data row has a malformed amount, and one where
    a good row and a blank row come first. *)
Definition malformed_first : list (list string) :=
  [header; ["X"; "Y"; "c"; "abc"; "5"; "0"]].

Definition malformed_later : list (list string) :=
  [header; towel; []; ["X"; "Y"; "c"; "z"; "5"; "0"]].

(** A batch of 1001 rows, larger than a page, whose last row the
    constrained server refuses. *)
Definition large_batch : list sales_row :=
  replicate 1000 towel_row ++ [returned_row].

(** ** The configuration: [get_db_connection]

    [os.environ], once [load_env] has read the [.env] file, is a map from
    names to values; [connect] stands for [psycopg2.connect], called with
    host, port, database name, user and password. *)
Module Config.
Section Config.

Context {env : Environment}.
Variable connect : string → Z → string → string → string → result PgConnection.

(** The truth value of what [os.getenv] returns: [None] and the empty
    string are false. *)
Definition truthy (v : option string) : bool :=
  match v with
  | Some (String _ _) => true
  | _ => false
  end.

Definition get_db_connection (environ : gmap string string)
    : result PgConnection :=
  let host := default "localhost" (environ !! "DB_HOST") in
  port ← (let text := default "5432" (environ !! "DB_PORT") in
          match int_of_str text with
          | Some n => Ok n
          | None => Raise (ValueError_int text)
          end);
  let dbname := environ !! "DB_NAME" in
  let user := environ !! "DB_USER" in
  let password := environ !! "DB_PASSWORD" in
  if negb (forallb truthy [dbname; user; password])
  then Raise (RuntimeError
                "Не заданы DB_NAME / DB_USER / DB_PASSWORD в .env. Проверь файл .env в корне проекта.")
  else connect host port (default "" dbname) (default "" user)
                         (default "" password).

End Config.
End Config.

(** ** The names the generator gives its files

    [write_csv_file] of [src/generate_csv.py] writes
    [output_dir / f"{shop_num}_{cash_num}.csv"], whose first row is the
    header below. *)

Definition digit_char (d : N) : ascii := ascii_of_N (48 + d).

(** The decimal digits of [n], most significant first, put before [acc];
    [fuel] bounds the number of digits. *)
Fixpoint str_digits (fuel : nat) (n : N) (acc : string) : string :=
  match fuel with
  | O => acc
  | S fuel' =>
      let acc' := String (digit_char (n mod 10)) acc in
      if (n / 10 =? 0)%N then acc' else str_digits fuel' (n / 10)%N acc'
  end.

Definition str_N (n : N) : string :=
  str_digits (S (N.to_nat (N.log2 n))) n "".

(** [str(z)], which is also how an f-string renders an [int]. *)
Definition str (z : Z) : string :=
  if (z <? 0)%Z then String "-"%char (str_N (Z.abs_N z))
  else str_N (Z.to_N z).

Definition csv_file_name (shop_num cash_num : Z) : string :=
  str shop_num +:+ "_" +:+ str cash_num +:+ ".csv".

(** The row [writer.writerow] writes first. *)
Definition csv_header : list string :=
  ["doc_id"; "item"; "category"; "amount"; "price"; "discount"].

(** ** The processed area *)

(** What a name denotes in the processed area, if anything. *)
Definition archived (q : string) (entries : list entry) : option node :=
  match lookup_entry "processed" entries with
  | Some (Directory children) => lookup_entry q children
  | _ => None
  end.

(** The processed area is absent, or a directory of regular files. *)
Definition archive_ok (entries : list entry) : Prop :=
  match lookup_entry "processed" entries with
  | None => True
  | Some (Directory children) => Forall (λ e, is_file e = true) children
  | Some _ => False
  end.

(** The batch a directory entry stands for: the rows parsed from it when
    it is an accepted file that parses, and no row otherwise. *)
Definition batch_of `{Environment} (e : entry) : list sales_row :=
  match accepted e, content e with
  | Some (p, shop_num, cash_num), RegularFile csv =>
      match parse_csv csv shop_num cash_num p with
      | Ok rows => rows
      | Raise _ => []
      end
  | _, _ => []
  end.

(** An entry that [find_csv_files] accepts parses. *)
Definition parses `{Environment} (e : entry) : Prop :=
  ∀ p shop_num cash_num csv,
    accepted e = Some (p, shop_num, cash_num) →
    content e = RegularFile csv →
    ∃ rows, parse_csv csv shop_num cash_num p = Ok rows.

(** A server and an operating system that refuse nothing. *)
Definition nothing_fails `{Environment} : Prop :=
  (∀ d r, insert_error d r = None) ∧
  (∀ d, commit_error d = None) ∧
  (∀ call entries, os_error call entries = None).

(** ** More sample inputs *)

Definition sample_connect
    : string → Z → string → string → string → result PgConnection :=
  λ _ _ _ _ _, Ok Connection.

Definition sample_environ : gmap string string :=
  <["DB_NAME" := "retail"]> (<["DB_USER" := "etl"]>
    (<["DB_PASSWORD" := "secret"]> ∅)).

(** A directory in which every export is in order. *)
Definition good_directory : list entry :=
  [Entry "notes.txt" (RegularFile []);
   Entry "3_2.csv" (RegularFile [header; towel]);
   Entry "4_1.csv" (RegularFile [header; ["X"; " Y "; "c"; "1"; "5"; "0"]])].

Definition other_row : sales_row :=
  SalesRow "X" "Y" "c" 1 (Dec false 5 0) (Dec false 0 0) 4 1 "4_1.csv".

(** A directory in which a regular file has taken the name of the
    processed area. *)
Definition blocked_directory : list entry :=
  [Entry "processed" (RegularFile []);
   Entry "3_2.csv" (RegularFile [header; towel])].

(** A directory with an earlier copy of [3_2.csv] in its processed area. *)
Definition archived_directory : list entry :=
  [Entry "3_2.csv" (RegularFile [header; towel]);
   Entry "processed"
     (Directory [Entry "3_2.csv" (RegularFile [header]);
                 Entry "1_1.csv" (RegularFile [header])])].

(** * Properties *)

(** ** Strings and their characters *)

Lemma append_nil (s : string) : "" +:+ s = s.
Proof. reflexivity. Qed.

Lemma append_cons (c : ascii) (s t : string) :
  String c s +:+ t = String c (s +:+ t).
Proof. reflexivity. Qed.

Lemma chars_step (b : ascii) (s1 : string) :
  ∃ c rest, chars (String b s1) = c :: chars rest ∧
            String b s1 = c +:+ rest ∧ c ≠ "" ∧
            (String.length rest ≤ String.length s1)%nat.
Proof.
  assert (∃ c rest, chars (String b s1) = c :: chars rest ∧
            String b s1 = c +:+ rest ∧ c ≠ "" ∧
            (∃ pre, s1 = pre +:+ rest)) as (c & rest & ? & ? & ? & pre & Hp).
  { destruct s1 as [|c1 [|c2 [|c3 s4]]]; cbn [chars].
    - exists (String b ""), "". repeat split; try done. by exists "".
    - destruct (two_bytes b c1).
      + exists (String b (String c1 "")), "". repeat split; try done.
        by exists (String c1 "").
      + exists (String b ""), (String c1 ""). repeat split; try done.
        by exists "".
    - destruct (two_bytes b c1).
      + exists (String b (String c1 "")), (String c2 "").
        repeat split; try done. by exists (String c1 "").
      + destruct (three_bytes b c1 c2).
        * exists (String b (String c1 (String c2 ""))), "".
          repeat split; try done. by exists (String c1 (String c2 "")).
        * exists (String b ""), (String c1 (String c2 "")).
          repeat split; try done. by exists "".
    - destruct (two_bytes b c1).
      + exists (String b (String c1 "")), (String c2 (String c3 s4)).
        repeat split; try done. by exists (String c1 "").
      + destruct (three_bytes b c1 c2).
        * exists (String b (String c1 (String c2 ""))), (String c3 s4).
          repeat split; try done. by exists (String c1 (String c2 "")).
        * destruct (four_bytes b c1 c2 c3).
          -- exists (String b (String c1 (String c2 (String c3 "")))), s4.
             repeat split; try done.
             by exists (String c1 (String c2 (String c3 ""))).
          -- exists (String b ""), (String c1 (String c2 (String c3 s4))).
             repeat split; try done. by exists "". }
  exists c, rest. repeat split; try done.
  rewrite Hp. clear. induction pre as [|a pre IH];
    [rewrite append_nil | rewrite append_cons; simpl]; lia.
Qed.

Lemma chars_ind (P : string → Prop) :
  P "" →
  (∀ c rest, c ≠ "" → chars (c +:+ rest) = c :: chars rest → P rest →
             P (c +:+ rest)) →
  ∀ s, P s.
Proof.
  intros Hnil Hstep s.
  remember (String.length s) as n eqn:Hn.
  revert s Hn. induction n as [n IH] using lt_wf_ind. intros s Hn.
  destruct s as [|b s1]; [done|].
  destruct (chars_step b s1) as (c & rest & Hc & Hs & Hne & Hlen).
  rewrite Hs. apply Hstep; [done|by rewrite <- Hs|].
  apply (IH (String.length rest)); [simpl in Hn; lia|done].
Qed.

Lemma join_chars (s : string) : join (chars s) = s.
Proof.
  induction s as [|c rest Hne Hc IH] using chars_ind; [done|].
  rewrite Hc. simpl. by rewrite IH.
Qed.

Lemma chars_nil (s : string) : chars s = [] → s = "".
Proof. intros H. by rewrite <- (join_chars s), H. Qed.

Lemma byte_in_below (lo hi : N) (b : ascii) :
  (N_of_ascii b < lo)%N → byte_in lo hi b = false.
Proof.
  intros H. unfold byte_in. apply andb_false_iff. left.
  apply N.leb_gt. lia.
Qed.

(** A byte below 194 is a character of its own, whatever follows. *)
Lemma chars_single (b : ascii) (s : string) :
  (N_of_ascii b < 194)%N →
  chars (String b s) = String b "" :: chars s.
Proof.
  intros H.
  assert (∀ c1, two_bytes b c1 = false) as H2.
  { intros. unfold two_bytes. by rewrite byte_in_below. }
  assert (∀ c1 c2, three_bytes b c1 c2 = false) as H3.
  { intros. unfold three_bytes. by rewrite !(byte_in_below _ _ b) by lia. }
  assert (∀ c1 c2 c3, four_bytes b c1 c2 c3 = false) as H4.
  { intros. unfold four_bytes. by rewrite !(byte_in_below _ _ b) by lia. }
  destruct s as [|c1 [|c2 [|c3 s4]]]; cbn [chars];
    by rewrite ?H2, ?H3, ?H4.
Qed.

(** A well-formed character of several bytes stays one character,
    whatever follows. *)
Lemma chars_multibyte (c s : string) :
  chars c = [c] → (1 < String.length c)%nat →
  chars (c +:+ s) = c :: chars s.
Proof.
  intros Hc Hlen.
  destruct c as [|b [|c1 [|c2 [|c3 [|c4 s5]]]]]; simpl in Hlen; try lia;
    cbn [chars] in Hc; rewrite !append_cons, ?append_nil.
  - destruct (two_bytes b c1) eqn:H2; [|done].
    destruct s as [|? ?]; cbn [chars]; by rewrite H2.
  - destruct (two_bytes b c1) eqn:H2; [done|].
    destruct (three_bytes b c1 c2) eqn:H3; [|done].
    destruct s as [|? ?]; cbn [chars]; by rewrite H2, H3.
  - destruct (two_bytes b c1) eqn:H2; [done|].
    destruct (three_bytes b c1 c2) eqn:H3; [done|].
    destruct (four_bytes b c1 c2 c3) eqn:H4; [|done].
    cbn [chars]. by rewrite H2, H3, H4.
  - destruct (two_bytes b c1) eqn:H2; [done|].
    destruct (three_bytes b c1 c2) eqn:H3; [done|].
    destruct (four_bytes b c1 c2 c3) eqn:H4; done.
Qed.

Lemma append_empty (s : string) : s +:+ "" = s.
Proof.
  induction s as [|a s IH]; [done|]. rewrite append_cons. by f_equal.
Qed.

Lemma append_assoc (s t u : string) : (s +:+ t) +:+ u = s +:+ (t +:+ u).
Proof.
  induction s as [|a s IH]; [done|]. rewrite !append_cons. by f_equal.
Qed.

Lemma join_cons (c : string) (cs : list string) :
  join (c :: cs) = c +:+ join cs.
Proof. reflexivity. Qed.

Lemma join_app (cs ds : list string) : join (cs ++ ds) = join cs +:+ join ds.
Proof.
  induction cs as [|c cs IH]; [done|]. simpl.
  by rewrite IH, append_assoc.
Qed.

Section Properties.

Context {env : Environment}.

(** ** The name pattern *)

Lemma is_decimal_char (c s : string) :
  is_decimal c = true → chars (c +:+ s) = c :: chars s.
Proof.
  unfold is_decimal. rewrite bool_decide_eq_true. intros [v Hv].
  unfold decimal_value in Hv.
  destruct c as [|b [|c1 c']]; [done| |].
  - destruct (is_digit b) eqn:Hb; [|done].
    rewrite append_cons, append_nil. apply chars_single.
    unfold is_digit in Hb. apply andb_true_iff in Hb as [_ Hb].
    apply N.leb_le in Hb. lia.
  - destruct (bool_decide _) eqn:Hc; [|done].
    apply bool_decide_eq_true in Hc.
    apply chars_multibyte; [done|simpl; lia].
Qed.

Lemma is_decimal_nonempty (c : string) : is_decimal c = true → c ≠ "".
Proof. by intros H ->. Qed.

Lemma chars_app_digits (cs : list string) (s : string) :
  forallb is_decimal cs = true → chars (join cs +:+ s) = cs ++ chars s.
Proof.
  induction cs as [|c cs IH]; [done|]. simpl.
  intros [Hc Hcs]%andb_true_iff.
  rewrite append_assoc, is_decimal_char by done. by rewrite IH.
Qed.

Lemma chars_join_digits (cs : list string) :
  forallb is_decimal cs = true → chars (join cs) = cs.
Proof.
  intros H. pose proof (chars_app_digits cs "" H) as Hc.
  by rewrite append_empty, app_nil_r in Hc.
Qed.

(** The characters of [g +:+ s] are those of [g] and then those of [s],
    when [g] is made of digits. *)
Lemma chars_all_digits_app (g s : string) :
  all_digits g = true → chars (g +:+ s) = chars g ++ chars s.
Proof.
  intros H. rewrite <- (join_chars g) at 1. by apply chars_app_digits.
Qed.

Lemma span_digits_sound (cs : list string) :
  cs = (span_digits cs).1 ++ (span_digits cs).2 ∧
  forallb is_decimal (span_digits cs).1 = true.
Proof.
  induction cs as [|c cs [IH1 IH2]]; simpl; [done|].
  destruct (is_decimal c) eqn:Hc; simpl; [|done].
  destruct (span_digits cs) as [ds rest]; simpl in *.
  rewrite Hc, IH2. split; [by f_equal | done].
Qed.

Lemma span_digits_app (ds rest : list string) :
  forallb is_decimal ds = true → stops_digits rest →
  span_digits (ds ++ rest) = (ds, rest).
Proof.
  intros Hds Hrest. induction ds as [|c ds IH].
  - destruct rest as [|c r]; simpl in *; [done|]. by rewrite Hrest.
  - simpl in *. apply andb_true_iff in Hds as [Hc Hds]. by rewrite Hc, IH.
Qed.

Lemma end_of_name_iff (s : string) :
  end_of_name s = true ↔ s = ".csv" ∨ s = ".csv" +:+ newline.
Proof.
  unfold end_of_name. rewrite orb_true_iff, !bool_decide_eq_true. done.
Qed.

Lemma join_nonempty (c : string) (cs : list string) :
  is_decimal c = true → join (c :: cs) ≠ "".
Proof.
  intros Hc. simpl. destruct c as [|a c]; [done|]. by rewrite append_cons.
Qed.

(** The matcher accepts exactly the language of the pattern, and returns
    its two groups. *)
Lemma FILENAME_PATTERN_match_iff (name g1 g2 : string) :
  FILENAME_PATTERN_match name = Some (g1, g2) ↔ match_groups name g1 g2.
Proof.
  unfold FILENAME_PATTERN_match, match_groups. split.
  - pose proof (span_digits_sound (chars name)) as [Hn Hd1].
    destruct (span_digits (chars name)) as [d1 r1]. cbn [fst snd] in Hn, Hd1.
    destruct d1 as [|c1 d1]; [done|].
    destruct r1 as [|u r2]; [done|].
    destruct (bool_decide (u = "_")) eqn:Hu; [|done].
    apply bool_decide_eq_true in Hu as ->.
    pose proof (span_digits_sound r2) as [Hr Hd2].
    destruct (span_digits r2) as [d2 r3]. cbn [fst snd] in Hr, Hd2.
    destruct d2 as [|c2 d2]; [done|].
    destruct (end_of_name (join r3)) eqn:He; [|done].
    intros [= <- <-]. apply end_of_name_iff in He.
    rewrite <- !(join_cons c1), <- !(join_cons c2).
    assert (is_decimal c1 = true) by (by apply andb_true_iff in Hd1 as []).
    assert (is_decimal c2 = true) by (by apply andb_true_iff in Hd2 as []).
        split; [by apply join_nonempty|].
    split; [unfold all_digits; by rewrite chars_join_digits|].
    split; [by apply join_nonempty|].
    split; [unfold all_digits; by rewrite chars_join_digits|].
    rewrite <- (join_chars name), Hn, Hr.
    rewrite join_app, (join_cons "_"), join_app.
    destruct He as [-> | ->]; [by left | by right].
  - intros (Hne1 & Hd1 & Hne2 & Hd2 & Hname).
    assert (∃ tl, (tl = ".csv" ∨ tl = ".csv" +:+ newline) ∧
                  name = g1 +:+ "_" +:+ g2 +:+ tl) as (tl & Htl & ->).
    { destruct Hname as [-> | ->];
        [exists ".csv" | exists (".csv" +:+ newline)]; split; auto. }
    rewrite (chars_all_digits_app g1) by done.
    change ("_" +:+ g2 +:+ tl) with (String "_"%char (g2 +:+ tl)).
    rewrite chars_single by (vm_compute; done).
    rewrite (chars_all_digits_app g2) by done.
    rewrite (span_digits_app (chars g1)); [|done|done].
    destruct (chars g1) as [|c1 d1] eqn:Hg1; [by apply chars_nil in Hg1|].
    rewrite bool_decide_true by done.
    rewrite (span_digits_app (chars g2));
      [|done|by destruct Htl as [-> | ->]].
    destruct (chars g2) as [|c2 d2] eqn:Hg2; [by apply chars_nil in Hg2|].
    rewrite <- Hg1, <- Hg2, !join_chars.
    by rewrite (proj2 (end_of_name_iff tl) Htl).
Qed.

(** ** Discovery *)

Lemma find_loop_spec (entries : list entry) (acc : list (string * Z * Z))
    (w : world) :
  find_loop entries acc w =
    (Ok (acc ++ omap accepted entries),
     World (fs w) (db w) (stdout w ++ omap skip_note entries)).
Proof.
  revert acc w. induction entries as [|e entries IH]; intros acc w.
  - simpl. unfold ret. rewrite !app_nil_r. by destruct w.
  - simpl. unfold accepted, skip_note.
    destruct (is_file e); simpl; [|apply IH].
    destruct (FILENAME_PATTERN_match (name e)) as [[g1 g2]|]; simpl.
    + rewrite IH. by rewrite <- app_assoc.
    + unfold bind, print, printed. rewrite IH. simpl. by rewrite <- app_assoc.
Qed.

Lemma find_csv_files_spec (w : world) :
  find_csv_files w =
    (Ok (omap accepted (fs w)),
     World (fs w) (db w) (stdout w ++ omap skip_note (fs w))).
Proof. unfold find_csv_files. by rewrite find_loop_spec. Qed.

Lemma accepted_Some (e : entry) (p : string) (shop cash : Z) :
  accepted e = Some (p, shop, cash) ↔
  is_file e = true ∧ p = name e ∧
  ∃ g1 g2, match_groups (name e) g1 g2 ∧
           shop = int_digits g1 ∧ cash = int_digits g2.
Proof.
  unfold accepted. destruct (is_file e); [|by split; [|intros []]].
  destruct (FILENAME_PATTERN_match (name e)) as [[g1 g2]|] eqn:Hm; simpl.
  - apply FILENAME_PATTERN_match_iff in Hm. split.
    + intros ?; simplify_eq. naive_solver.
    + intros (_ & -> & h1 & h2 & Hm' & -> & ->).
      apply FILENAME_PATTERN_match_iff in Hm, Hm'. congruence.
  - split; [done|]. intros (_ & _ & h1 & h2 & Hm' & _).
    apply FILENAME_PATTERN_match_iff in Hm'. congruence.
Qed.

Lemma accepted_None (e : entry) :
  is_file e = true →
  accepted e = None ↔ ∀ g1 g2, ¬ match_groups (name e) g1 g2.
Proof.
  intros Hf. unfold accepted. rewrite Hf.
  destruct (FILENAME_PATTERN_match (name e)) as [[g1 g2]|] eqn:Hm; simpl.
  - apply FILENAME_PATTERN_match_iff in Hm. naive_solver.
  - split; [|done]. intros _ g1 g2 Hm'.
    apply FILENAME_PATTERN_match_iff in Hm'. congruence.
Qed.

(** ** The transactional load *)

Lemma for_each_app {A} (body : A → M ()) (l1 l2 : list A) (w : world) :
  for_each body (l1 ++ l2) w = (for_each body l1 ;; for_each body l2) w.
Proof.
  revert w. induction l1 as [|x l1 IH]; intros w; simpl.
  - done.
  - unfold bind. destruct (body x w) as [[[]|e] w1]; [|done].
    rewrite IH. done.
Qed.

Lemma concat_paginate_from {A} (page_size : nat) (page : list A) (room : nat)
    (seq : list A) :
  concat (paginate_from page_size page room seq) = page ++ seq.
Proof.
  revert page room. induction seq as [|x seq IH]; intros page room; simpl.
  - destruct page; simpl; by rewrite ?app_nil_r.
  - destruct room as [|[|room]]; simpl; rewrite IH; simpl;
      by rewrite <- ?app_assoc.
Qed.

(** Executing page after page is executing the statements one after the
    other: the pages only group them. *)
Lemma for_each_execute_concat (pages : list (list sales_row)) (w : world) :
  for_each execute pages w = execute (concat pages) w.
Proof.
  revert w. induction pages as [|page pages IH]; intros w; simpl; [done|].
  change (execute (page ++ concat pages))
    with (for_each insert_one (page ++ concat pages)).
  rewrite for_each_app. unfold bind.
  fold (execute page). destruct (execute page w) as [[[]|e] w1]; [|done].
  apply IH.
Qed.

Lemma execute_batch_unchunked (rows : list sales_row) (page_size : nat)
    (w : world) :
  execute_batch rows page_size w = execute rows w.
Proof.
  unfold execute_batch, paginate.
  by rewrite for_each_execute_concat, concat_paginate_from.
Qed.

(** The statements of a page reach the server one by one: each extends
    the pending rows, and the first refusal stops the page. *)
Lemma execute_inv (rows : list sales_row) (w : world) :
  ∃ r w', execute rows w = (r, w') ∧
    fs w' = fs w ∧ stdout w' = stdout w ∧
    committed (db w') = committed (db w) ∧
    (r = Ok () → pending (db w') = pending (db w) ++ rows).
Proof.
  revert w. induction rows as [|x rows IH]; intros w.
  - exists (Ok ()), w. simpl. by rewrite app_nil_r.
  - unfold execute in *. cbn [for_each]. unfold bind, insert_one at 1.
    destruct (insert_error (db w) x) as [msg|].
    + exists (Raise (DatabaseError msg)), w. by repeat split.
    + destruct (IH (set_db (Database (committed (db w)) (pending (db w) ++ [x])) w))
        as (r & w' & -> & Hfs & Hout & Hc & Hp).
      exists r, w'. simpl in *. repeat split; try done.
      intros Hr. by rewrite Hp, <- app_assoc.
Qed.

Lemma execute_refused (rows pre post : list sales_row) (x : sales_row)
    (msg : string) (w : world) :
  rows = pre ++ x :: post →
  insert_error (Database (committed (db w)) (pending (db w) ++ pre)) x
    = Some msg →
  ∃ e w', execute rows w = (Raise e, w').
Proof.
  intros ->. revert w. unfold execute.
  induction pre as [|y pre IH]; intros w Hx; cbn [app for_each];
    unfold bind, insert_one at 1.
  - rewrite app_nil_r in Hx. destruct (db w) as [c p] eqn:Hdb.
    simpl in Hx. rewrite Hx. eauto.
  - destruct (insert_error (db w) y) as [msg'|]; [eauto|].
    apply IH. simpl. by rewrite <- app_assoc.
Qed.

Lemma execute_accepted (rows : list sales_row) (w : world) :
  (∀ pre x post, rows = pre ++ x :: post →
     insert_error (Database (committed (db w)) (pending (db w) ++ pre)) x
       = None) →
  execute rows w =
    (Ok (), set_db (Database (committed (db w)) (pending (db w) ++ rows)) w).
Proof.
  revert w. unfold execute.
  induction rows as [|y rows IH]; intros w Hall; cbn [for_each].
  - unfold ret. rewrite app_nil_r. by destruct w as [f [c p] o].
  - unfold bind, insert_one at 1.
    pose proof (Hall [] y rows eq_refl) as Hy. rewrite app_nil_r in Hy.
    destruct (db w) as [c p] eqn:Hdb. simpl in *. rewrite Hy.
    rewrite IH; simpl.
    + by rewrite <- app_assoc.
    + intros pre x post ->. rewrite <- app_assoc.
      by apply (Hall (y :: pre) x post).
Qed.

(** ** The file system *)

Lemma lookup_entry_remove_entry (p q : string) (entries : list entry) :
  lookup_entry p (remove_entry q entries) =
    if decide (p = q) then None else lookup_entry p entries.
Proof.
  unfold remove_entry. induction entries as [|e entries IH]; simpl.
  - by destruct (decide (p = q)).
  - rewrite filter_cons. destruct (decide (name e ≠ q)) as [Hne|Heq]; simpl.
    + rewrite IH. case_bool_decide; [|done].
      destruct (decide (p = q)); congruence.
    + rewrite IH. apply dec_stable in Heq.
      destruct (decide (p = q)) as [->|]; [done|].
      case_bool_decide; congruence.
Qed.

Lemma remove_entry_keeps (q : string) (entries : list entry) (e : entry) :
  e ∈ entries → name e ≠ q → e ∈ remove_entry q entries.
Proof. intros He Hq. unfold remove_entry. by apply list_elem_of_filter. Qed.

(** Writing a directory under its name leaves the regular files of the
    listing alone. *)
Lemma put_entry_keeps (p : string) (c : node) (entries : list entry)
    (e : entry) :
  e ∈ entries → is_file e = true →
  (∀ csv, lookup_entry p entries ≠ Some (RegularFile csv)) →
  e ∈ put_entry p c entries.
Proof.
  intros He Hf. induction entries as [|e0 entries IH]; simpl; intros Hp.
  - by apply elem_of_nil in He.
  - case_bool_decide as Hn.
    + apply elem_of_cons in He as [->|He]; [|by apply elem_of_cons; right].
      unfold is_file in Hf. destruct (content e0) eqn:Hc; try done.
      by destruct (Hp rows).
    + apply elem_of_cons in He as [->|He]; apply elem_of_cons; auto.
Qed.

Lemma lookup_entry_put_entry (p q : string) (c : node)
    (entries : list entry) :
  lookup_entry q (put_entry p c entries) =
    if decide (q = p) then Some c else lookup_entry q entries.
Proof.
  induction entries as [|e entries IH]; simpl.
  - case_bool_decide; destruct (decide (q = p)); congruence.
  - case_bool_decide as Hn; simpl.
    + subst p. case_bool_decide; destruct (decide (q = name e)); congruence.
    + rewrite IH. case_bool_decide; destruct (decide (q = p)); congruence.
Qed.

Lemma lookup_entry_app (q : string) (l1 l2 : list entry) :
  lookup_entry q (l1 ++ l2) =
    match lookup_entry q l1 with
    | Some c => Some c
    | None => lookup_entry q l2
    end.
Proof.
  induction l1 as [|e l1 IH]; simpl; [done|]. by case_bool_decide.
Qed.

Lemma mkdir_inv (p : string) (w : world) :
  ∃ r w', mkdir p w = (r, w') ∧
    db w' = db w ∧ stdout w' = stdout w ∧
    (∀ e, e ∈ fs w → e ∈ fs w') ∧
    (∀ exc, r = Raise exc → w' = w).
Proof.
  unfold mkdir. destruct (os_error (Mkdir p) (fs w)) as [msg|].
  { eexists _, _. split; [done|]. by repeat split. }
  destruct (lookup_entry p (fs w)) as [[csv|ch|]|];
    eexists _, _; (split; [done|]); repeat split; try done.
  simpl. intros e He. apply elem_of_app. by left.
Qed.

Lemma rename_inv (src dir : string) (w : world) :
  ∃ r w', rename src dir w = (r, w') ∧
    db w' = db w ∧ stdout w' = stdout w ∧
    (∀ e, e ∈ fs w → is_file e = true → name e ≠ src → e ∈ fs w') ∧
    (∀ exc, r = Raise exc → w' = w).
Proof.
  unfold rename. destruct (os_error (Rename src) (fs w)) as [msg|].
  { eexists _, _. split; [done|]. by repeat split. }
  destruct (lookup_entry src (fs w)) as [c|] eqn:Hsrc.
  2:{ eexists _, _. split; [done|]. by repeat split. }
  destruct (lookup_entry dir (fs w)) as [[csv|ch|]|] eqn:Hdir;
    try (eexists _, _; split; [done|]; by repeat split).
  destruct (lookup_entry src ch) as [[csv'|ch'|]|];
    eexists _, _; (split; [done|]); repeat split; try done;
    simpl; intros e He Hf Hne;
    (apply put_entry_keeps; [by apply remove_entry_keeps|done|]);
    intros csv; rewrite lookup_entry_remove_entry;
    destruct (decide (dir = src)); congruence.
Qed.

Lemma move_file_to_processed_inv (filepath : string) (w : world) :
  ∃ r w', move_file_to_processed filepath "processed" w = (r, w') ∧
    db w' = db w ∧
    (∀ e, e ∈ fs w → is_file e = true → name e ≠ filepath → e ∈ fs w') ∧
    match r with
    | Ok _ => stdout w' = stdout w ++ [Moved filepath]
    | Raise _ => stdout w' = stdout w
    end.
Proof.
  unfold move_file_to_processed, bind.
  destruct (mkdir_inv "processed" w) as (r1 & w1 & -> & Hdb1 & Hout1 & Hfs1 & _).
  destruct r1 as [[]|e1]; [|by eexists _, _; split; [done|]; auto].
  destruct (rename_inv filepath "processed" w1)
    as (r2 & w2 & -> & Hdb2 & Hout2 & Hfs2 & _).
  destruct r2 as [[]|e2]; eexists _, _; (split; [done|]); simpl;
    repeat split; try congruence; auto.
Qed.

(** A move that succeeds: the name has left the data directory and
    denotes, in the processed area, what it denoted before. *)
Lemma move_file_to_processed_ok (filepath : string) (w w' : world) :
  filepath ≠ "processed" →
  move_file_to_processed filepath "processed" w = (Ok (), w') →
  lookup_entry filepath (fs w') = None ∧
  ∃ children,
    lookup_entry "processed" (fs w') = Some (Directory children) ∧
    lookup_entry filepath children = lookup_entry filepath (fs w).
Proof.
  intros Hne. unfold move_file_to_processed, bind.
  destruct (mkdir "processed" w) as [[[]|e1] w1] eqn:Hmk; [|done].
  assert (lookup_entry filepath (fs w1) = lookup_entry filepath (fs w))
    as Hsame.
  { revert Hmk. unfold mkdir.
    destruct (os_error _ _); [done|].
    destruct (lookup_entry "processed" (fs w)) as [[| |]|];
      intros [= <-]; try done.
    simpl. rewrite lookup_entry_app.
    destruct (lookup_entry filepath (fs w)); [done|]. simpl.
    by case_bool_decide. }
  clear Hmk. unfold rename, print.
  destruct (os_error (Rename filepath) (fs w1)); [done|].
  destruct (lookup_entry filepath (fs w1)) as [c|] eqn:Hsrc; [|done].
  destruct (lookup_entry "processed" (fs w1)) as [[|ch|]|]; try done.
  destruct (lookup_entry filepath ch) as [[| |]|]; try done;
    intros [= <-]; simpl;
    rewrite !lookup_entry_put_entry, lookup_entry_remove_entry;
    (destruct (decide (filepath = "processed")); [done|]);
    (destruct (decide (filepath = filepath)); [|done]);
    (split; [done|]); eexists; (split; [done|]);
    rewrite lookup_entry_put_entry;
    (destruct (decide (filepath = filepath)); [|done]); congruence.
Qed.

Lemma move_file_to_processed_succeeds (filepath : string) (c : node)
    (w : world) :
  lookup_entry filepath (fs w) = Some c →
  filepath ≠ "processed" →
  (∀ call entries, os_error call entries = None) →
  processed_area_ready filepath (fs w) →
  ∃ w', move_file_to_processed filepath "processed" w = (Ok (), w').
Proof.
  intros Hsrc Hne Hos Hready.
  unfold move_file_to_processed, bind, mkdir, rename, print.
  rewrite Hos. unfold processed_area_ready in Hready.
  destruct (lookup_entry "processed" (fs w)) as [[|ch|]|] eqn:Hdir;
    try done; rewrite Hos; simpl.
  - rewrite Hsrc, Hdir.
    destruct (lookup_entry filepath ch) as [[| |]|]; try done; eauto.
  - rewrite !lookup_entry_app, Hsrc, Hdir. simpl. eauto.
Qed.

(** ** One transaction *)

Lemma transaction_outcome (conn : PgConnection) (rows : list sales_row)
    (w : world) :
  ∃ r w', with_conn conn (insert_rows conn rows) w = (r, w') ∧
    fs w' = fs w ∧ stdout w' = stdout w ∧ pending (db w') = [] ∧
    match r with
    | Ok _ => committed (db w') = committed (db w) ++ pending (db w) ++ rows
    | Raise _ => committed (db w') = committed (db w)
    end.
Proof.
  unfold with_conn, insert_rows. rewrite execute_batch_unchunked.
  destruct (execute_inv rows w) as (r & w1 & -> & Hfs & Hout & Hc & Hp).
  destruct r as [[]|e].
  - unfold commit. destruct (commit_error (db w1)) as [msg|];
      eexists _, _; (split; [done|]); simpl; repeat split; try done.
    by rewrite Hc, Hp.
  - eexists _, _. split; [done|]. by repeat split.
Qed.

(** What is on the console does not bear on a transaction. *)
Lemma execute_printed (rows : list sales_row) (m : message) (w : world) :
  execute rows (printed m w) =
    ((execute rows w).1, printed m (execute rows w).2).
Proof.
  revert w. unfold execute.
  induction rows as [|x rows IH]; intros w; cbn [for_each]; [done|].
  unfold bind, insert_one at 1 3 5. simpl.
  destruct (insert_error (db w) x) as [msg|]; [done|].
  apply (IH (set_db _ w)).
Qed.

Lemma transaction_printed (conn : PgConnection) (rows : list sales_row)
    (m : message) (w : world) :
  with_conn conn (insert_rows conn rows) (printed m w) =
    ((with_conn conn (insert_rows conn rows) w).1,
     printed m (with_conn conn (insert_rows conn rows) w).2).
Proof.
  unfold with_conn, insert_rows. rewrite !execute_batch_unchunked.
  rewrite execute_printed.
  destruct (execute rows w) as [[[]|e] w1]; simpl; [|done].
  unfold commit. simpl. by destruct (commit_error (db w1)).
Qed.

(** ** One file of the run *)

Lemma read_csv_file_printed (p : string) (shop cash : Z) (m : message)
    (w : world) :
  read_csv_file p shop cash (printed m w) =
    ((read_csv_file p shop cash w).1, printed m w).
Proof. done. Qed.

Lemma read_csv_file_world (p : string) (shop cash : Z) (w : world) :
  read_csv_file p shop cash w = ((read_csv_file p shop cash w).1, w).
Proof. done. Qed.

(** A file that does not parse: the exception leaves the loop body. *)
Lemma process_file_unparsed (conn : option PgConnection) (dry_run : bool)
    (p : string) (shop cash : Z) (w : world) (e : exn) :
  (read_csv_file p shop cash w).1 = Raise e →
  process_file conn dry_run (p, shop, cash) w =
    (Raise e, printed (Processing p shop cash) w).
Proof.
  intros Hread. unfold process_file, bind, print.
  by rewrite read_csv_file_printed, Hread.
Qed.

(** A file that parses, in a dry run. *)
Lemma process_file_dry (conn : option PgConnection) (p : string)
    (shop cash : Z) (w : world) (rows : list sales_row) :
  (read_csv_file p shop cash w).1 = Ok rows →
  process_file conn true (p, shop, cash) w =
    (Ok (), printed DryRunNote
              (printed (RowsToLoad (length rows))
                 (printed (Processing p shop cash) w))).
Proof.
  intros Hread. unfold process_file, bind, print.
  by rewrite read_csv_file_printed, Hread.
Qed.

(** A file that parses, in a normal run with a connection. *)
Lemma process_file_parsed (conn : PgConnection) (p : string) (shop cash : Z)
    (w : world) (rows : list sales_row) :
  (read_csv_file p shop cash w).1 = Ok rows →
  process_file (Some conn) false (p, shop, cash) w =
    match with_conn conn (insert_rows conn rows)
            (printed (RowsToLoad (length rows))
               (printed (Processing p shop cash) w)) with
    | (Raise e, wa) => (Ok (), printed (LoadError p e) wa)
    | (Ok _, wa) =>
        match move_file_to_processed p "processed" wa with
        | (Ok _, wb) => (Ok (), wb)
        | (Raise e, wb) => (Ok (), printed (LoadError p e) wb)
        end
    end.
Proof.
  intros Hread. unfold process_file, bind at 1 2 3, print at 1 2.
  rewrite read_csv_file_printed, Hread. unfold try_except, bind, print.
  destruct (with_conn conn _ _) as [[[]|e] wa]; [|done].
  by destruct (move_file_to_processed p "processed" wa) as [[[]|e] wb].
Qed.

(** ** The claims about loading *)

(** C3.  Loading the batch of one file is all or nothing.  From a
    connection with no transaction in progress, [with conn:
    insert_rows(conn, rows)] either ends normally, and then the table
    holds every row of the batch after the rows it held before, or it
    raises, and then the table holds exactly the rows it held before; in
    both cases no row is left pending.  It raises as soon as the server
    refuses one row of the batch, be it the last, and it ends normally
    when the server accepts every row and the commit.  The outcome is the
    same for every page size of [execute_batch]. *)
Theorem load_is_all_or_nothing (conn : PgConnection) (rows : list sales_row)
    (w : world) :
  pending (db w) = [] →
  ∃ r w',
    with_conn conn (insert_rows conn rows) w = (r, w') ∧
    fs w' = fs w ∧ stdout w' = stdout w ∧ pending (db w') = [] ∧
    match r with
    | Ok _ => committed (db w') = committed (db w) ++ rows
    | Raise _ => committed (db w') = committed (db w)
    end ∧
    (∀ pre x post msg,
       rows = pre ++ x :: post →
       insert_error (Database (committed (db w)) pre) x = Some msg →
       ∃ e, r = Raise e) ∧
    ((∀ pre x post,
        rows = pre ++ x :: post →
        insert_error (Database (committed (db w)) pre) x = None) →
     commit_error (Database (committed (db w)) rows) = None →
     r = Ok ()) ∧
    (∀ page_size,
       (0 < page_size)%nat →
       with_conn conn (execute_batch rows page_size) w = (r, w')).
Proof.
  intros Hp.
  destruct (transaction_outcome conn rows w)
    as (r & w' & Heq & Hfs & Hout & Hp' & Hc).
  exists r, w'. rewrite Hp in Hc. simpl in Hc.
  repeat split; try done.
  - intros pre x post msg Hrows Hx.
    destruct (execute_refused rows pre post x msg w Hrows) as (e & w1 & He).
    { by rewrite Hp. }
    revert Heq. unfold with_conn, insert_rows.
    rewrite execute_batch_unchunked, He. intros [= <- _]. eauto.
  - intros Hall Hcommit. revert Heq. unfold with_conn, insert_rows.
    rewrite execute_batch_unchunked, execute_accepted.
    + unfold commit. simpl. rewrite Hp. simpl. rewrite Hcommit.
      by intros [= <- _].
    + intros pre x post Hrows. rewrite Hp. by apply (Hall pre x post).
  - intros page_size _. rewrite <- Heq. unfold with_conn, insert_rows.
    by rewrite !execute_batch_unchunked.
Qed.

(** ** The claims about one file of a normal run *)

Lemma for_each_cons_ok {A} (body : A → M ()) (x : A) (l : list A)
    (w w' : world) :
  body x w = (Ok (), w') →
  for_each body (x :: l) w = for_each body l w'.
Proof. intros H. cbn [for_each]. unfold bind. by rewrite H. Qed.

Lemma for_each_cons_raise {A} (body : A → M ()) (x : A) (l : list A)
    (w w' : world) (e : exn) :
  body x w = (Raise e, w') →
  for_each body (x :: l) w = (Raise e, w').
Proof. intros H. cbn [for_each]. unfold bind. by rewrite H. Qed.

(** C2.  In a normal run, when the load of a parsed file raises, the
    exception is caught: the file's step ends normally, having printed the
    file name with the exception, the directory is as it was, the table
    holds what it held, and the loop goes on with the files that follow. *)
Theorem load_failure_is_isolated (conn : PgConnection) (p : string)
    (shop cash : Z) (rest : list (string * Z * Z)) (w : world)
    (rows : list sales_row) (e : exn) :
  (read_csv_file p shop cash w).1 = Ok rows →
  (with_conn conn (insert_rows conn rows) w).1 = Raise e →
  ∃ w',
    process_file (Some conn) false (p, shop, cash) w = (Ok (), w') ∧
    stdout w' = stdout w ++ [Processing p shop cash;
                             RowsToLoad (length rows);
                             LoadError p e] ∧
    fs w' = fs w ∧
    committed (db w') = committed (db w) ∧ pending (db w') = [] ∧
    for_each (process_file (Some conn) false) ((p, shop, cash) :: rest) w =
      for_each (process_file (Some conn) false) rest w'.
Proof.
  intros Hread Hload.
  pose proof (process_file_parsed conn p shop cash w rows Hread) as Hstep.
  destruct (transaction_outcome conn rows w)
    as (r & wa & Heq & Hfs & Hout & Hp & Hc).
  rewrite Heq in Hload. simpl in Hload. subst r.
  rewrite !transaction_printed, Heq in Hstep. cbn [fst snd] in Hstep.
  eexists. split; [exact Hstep|].
  split; [simpl; by rewrite Hout, <- !app_assoc|].
  repeat split; try done. by apply for_each_cons_ok.
Qed.

(** C7.  In a normal run, the step of a parsed file always ends normally,
    in one of two ways.  Either the load raises: then the directory is as
    it was, the table holds what it held, and the failure is printed.  Or
    the load commits: then [move_file_to_processed] starts from a world
    whose table already holds the batch, with nothing pending; whatever
    the move does, to the directory or by raising, the database stays as
    the commit left it, and a move that raises is printed.  In both cases
    the loop goes on with the files that follow. *)
Theorem move_follows_commit (conn : PgConnection) (p : string)
    (shop cash : Z) (rest : list (string * Z * Z)) (w : world)
    (rows : list sales_row) :
  (read_csv_file p shop cash w).1 = Ok rows →
  pending (db w) = [] →
  ∃ w',
    process_file (Some conn) false (p, shop, cash) w = (Ok (), w') ∧
    for_each (process_file (Some conn) false) ((p, shop, cash) :: rest) w =
      for_each (process_file (Some conn) false) rest w' ∧
    ((∃ e,
        (with_conn conn (insert_rows conn rows) w).1 = Raise e ∧
        fs w' = fs w ∧ db w' = Database (committed (db w)) [] ∧
        stdout w' = stdout w ++ [Processing p shop cash;
                                 RowsToLoad (length rows);
                                 LoadError p e])
     ∨
     (∃ wa r wb,
        (with_conn conn (insert_rows conn rows) w).1 = Ok () ∧
        fs wa = fs w ∧ db wa = Database (committed (db w) ++ rows) [] ∧
        move_file_to_processed p "processed" wa = (r, wb) ∧
        fs w' = fs wb ∧ db w' = db wa ∧
        stdout w' = stdout w ++ [Processing p shop cash;
                                 RowsToLoad (length rows);
                                 match r with
                                 | Ok _ => Moved p
                                 | Raise e => LoadError p e
                                 end])).
Proof.
  intros Hread Hpending.
  pose proof (process_file_parsed conn p shop cash w rows Hread) as Hstep.
  destruct (transaction_outcome conn rows w)
    as (r & wa & Heq & Hfs & Hout & Hp & Hc).
  rewrite !transaction_printed, Heq in Hstep. cbn [fst snd] in Hstep.
  rewrite Heq. cbn [fst].
  assert (∀ d : database,
            d = Database (committed d) (pending d)) as Heta by by intros [].
  destruct r as [[]|e].
  - set (wq := printed _ (printed _ wa)) in Hstep.
    destruct (move_file_to_processed_inv p wq)
      as (r & wb & Hmv & Hdb & _ & Hmsg).
    rewrite Hmv in Hstep.
    exists (match r with Ok _ => wb | Raise e => printed (LoadError p e) wb end).
    split; [by destruct r as [[]|e]|].
    split; [apply for_each_cons_ok; by destruct r as [[]|e]|].
    right. exists wq, r, wb. split; [done|]. split; [done|].
    split; [simpl; by rewrite (Heta (db wa)), Hp, Hc, Hpending|].
    split; [done|].
    destruct r as [[]|e]; simpl; (split; [done|]); (split; [done|]);
      rewrite Hmsg; simpl; by rewrite Hout, <- !app_assoc.
  - eexists. split; [exact Hstep|].
    split; [by apply for_each_cons_ok|].
    left. exists e. split; [done|]. split; [done|].
    split; [simpl; by rewrite (Heta (db wa)), Hp, Hc|].
    simpl. by rewrite Hout, <- !app_assoc.
Qed.

Lemma issubset_true (required names : list string) :
  issubset required names = true ↔ ∀ k, k ∈ required → k ∈ names.
Proof.
  unfold issubset. rewrite forallb_forall. split.
  - intros H k Hk. eapply bool_decide_eq_true_1, H. by apply list_elem_of_In.
  - intros H k Hk. apply bool_decide_eq_true_2, H. by apply list_elem_of_In.
Qed.

Lemma FILENAME_PATTERN_match_not_processed (p : string) :
  is_Some (FILENAME_PATTERN_match p) → p ≠ "processed".
Proof. intros [g Hg] ->. vm_compute in Hg. done. Qed.

(** C10.  An accepted file with a complete header and no data row is
    loaded like any other in a normal run: parsing yields the empty
    batch; loading it sends no [INSERT] and is just the commit; and when
    the server accepts the commit and nothing stands in the way of the
    move, the step ends normally with the file in the processed area, no
    longer in the data directory, the table holding what it held. *)
Theorem empty_file_is_loaded (conn : PgConnection) (p : string)
    (shop cash : Z) (csv : list (list string)) (w : world) :
  is_Some (FILENAME_PATTERN_match p) →
  lookup_entry p (fs w) = Some (RegularFile csv) →
  (∀ k, k ∈ required_fields → k ∈ default [] (fieldnames csv)) →
  DictReader_rows csv = [] →
  (read_csv_file p shop cash w).1 = Ok [] ∧
  (∀ v, with_conn conn (insert_rows conn []) v = commit v) ∧
  (pending (db w) = [] →
   commit_error (db w) = None →
   (∀ call entries, os_error call entries = None) →
   processed_area_ready p (fs w) →
   ∃ w',
     process_file (Some conn) false (p, shop, cash) w = (Ok (), w') ∧
     db w' = db w ∧
     lookup_entry p (fs w') = None ∧
     (∃ children,
        lookup_entry "processed" (fs w') = Some (Directory children) ∧
        lookup_entry p children = Some (RegularFile csv)) ∧
     stdout w' = stdout w ++ [Processing p shop cash; RowsToLoad 0;
                              Moved p]).
Proof.
  intros Hacc Hfile Hheader Hrows.
  assert ((read_csv_file p shop cash w).1 = Ok []) as Hread.
  { unfold read_csv_file, open_file. simpl. rewrite Hfile. simpl.
    unfold parse_csv. rewrite (proj2 (issubset_true _ _) Hheader).
    simpl. by rewrite Hrows. }
  split; [done|]. split; [done|].
  intros Hpending Hcommit Hos Hready.
  pose proof (process_file_parsed conn p shop cash w [] Hread) as Hstep.
  revert Hstep. simpl length.
  set (wq := printed (RowsToLoad 0) (printed (Processing p shop cash) w)).
  change (with_conn conn (insert_rows conn []) wq) with (commit wq).
  unfold commit. change (db wq) with (db w). rewrite Hcommit, Hpending.
  rewrite app_nil_r.
  set (wa := set_db _ wq).
  pose proof (FILENAME_PATTERN_match_not_processed p Hacc) as Hne.
  destruct (move_file_to_processed_succeeds p (RegularFile csv) wa)
    as (wb & Hmv); try done.
  rewrite Hmv. intros Hstep. exists wb. split; [done|].
  destruct (move_file_to_processed_ok p wa wb Hne Hmv) as (Hgone & ch & Hdir & Hin).
  destruct (move_file_to_processed_inv p wa) as (r & wb' & Hmv' & Hdb & _ & Hmsg).
  rewrite Hmv in Hmv'. injection Hmv' as <- <-.
  split.
  { rewrite Hdb. simpl. destruct (db w) as [c pd]. simpl in *. by subst. }
  split; [done|]. split.
  { exists ch. split; [done|]. by rewrite Hin. }
  rewrite Hmsg. simpl. by rewrite <- !app_assoc.
Qed.

(** ** The run *)

Lemma process_files_unfold (conn : option PgConnection) (dry_run : bool)
    (w : world) :
  process_files conn dry_run w =
    match omap accepted (fs w) with
    | [] => (Ok (), printed NoFiles (listed w))
    | f :: files =>
        for_each (process_file conn dry_run) (f :: files)
                 (printed (Found (length (f :: files))) (listed w))
    end.
Proof.
  unfold process_files, bind. rewrite find_csv_files_spec.
  by destruct (omap accepted (fs w)).
Qed.

Lemma process_file_no_connection (p : string) (shop cash : Z) (w : world)
    (rows : list sales_row) :
  (read_csv_file p shop cash w).1 = Ok rows →
  process_file None false (p, shop, cash) w =
    (Raise AssertionError,
     printed (RowsToLoad (length rows))
       (printed (Processing p shop cash) w)).
Proof.
  intros Hread. unfold process_file, bind, print.
  by rewrite read_csv_file_printed, Hread.
Qed.

(** A step touches no regular file of the directory but its own. *)
Lemma process_file_keeps (conn : option PgConnection) (dry_run : bool)
    (p : string) (shop cash : Z) (w : world) (e : entry) :
  e ∈ fs w → is_file e = true → name e ≠ p →
  e ∈ fs (process_file conn dry_run (p, shop, cash) w).2.
Proof.
  intros He Hf Hne.
  destruct ((read_csv_file p shop cash w).1) as [rows|exc] eqn:Hread.
  2:{ by rewrite (process_file_unparsed _ _ _ _ _ _ exc Hread). }
  destruct dry_run.
  { by rewrite (process_file_dry _ _ _ _ _ rows Hread). }
  destruct conn as [conn|].
  2:{ by rewrite (process_file_no_connection _ _ _ _ rows Hread). }
  rewrite (process_file_parsed _ _ _ _ _ rows Hread).
  set (wq := printed _ (printed _ w)).
  destruct (transaction_outcome conn rows wq)
    as (r & wa & -> & Hfs & _).
  destruct r as [[]|exc]; [|simpl; by rewrite Hfs].
  destruct (move_file_to_processed_inv p wa) as (r & wb & -> & _ & Hkeep & _).
  assert (e ∈ fs wb) by (apply Hkeep; [by rewrite Hfs|done|done]).
  by destruct r as [[]|exc].
Qed.

Lemma for_each_process_file_keeps (conn : option PgConnection)
    (dry_run : bool) (files : list (string * Z * Z)) (w : world)
    (e : entry) :
  e ∈ fs w → is_file e = true →
  (∀ f, f ∈ files → name e ≠ f.1.1) →
  e ∈ fs (for_each (process_file conn dry_run) files w).2.
Proof.
  revert w. induction files as [|[[p shop] cash] files IH];
    intros w He Hf Hne; [done|].
  cbn [for_each]. unfold bind.
  pose proof (process_file_keeps conn dry_run p shop cash w e He Hf) as Hk.
  destruct (process_file conn dry_run (p, shop, cash) w) as [[[]|exc] w1].
  - apply IH; [|done|].
    + apply Hk. apply (Hne (p, shop, cash)). by left.
    + intros f Hin. apply Hne. by right.
  - apply Hk. apply (Hne (p, shop, cash)). by left.
Qed.

(** A dry step changes neither the directory nor the database. *)
Lemma process_file_dry_frame (conn : option PgConnection) (f : string * Z * Z)
    (w : world) :
  fs (process_file conn true f w).2 = fs w ∧
  db (process_file conn true f w).2 = db w.
Proof.
  destruct f as [[p shop] cash].
  destruct ((read_csv_file p shop cash w).1) as [rows|exc] eqn:Hread.
  - by rewrite (process_file_dry _ _ _ _ _ rows Hread).
  - by rewrite (process_file_unparsed _ _ _ _ _ _ exc Hread).
Qed.

Lemma for_each_dry_frame (conn : option PgConnection)
    (files : list (string * Z * Z)) (w : world) :
  fs (for_each (process_file conn true) files w).2 = fs w ∧
  db (for_each (process_file conn true) files w).2 = db w.
Proof.
  revert w. induction files as [|f files IH]; intros w; [done|].
  cbn [for_each]. unfold bind.
  pose proof (process_file_dry_frame conn f w) as [Hfs Hdb].
  destruct (process_file conn true f w) as [[[]|exc] w1]; [|done].
  destruct (IH w1) as [-> ->]. done.
Qed.

(** C8.  A dry run changes neither the directory nor the database,
    whatever the files contain and whether or not the run ends with an
    exception; this holds of [process_files] with the dry-run flag and of
    [main] started with it.  Each file is still read and parsed, and the
    outcome reported: a file that parses prints its number of rows and the
    dry-run note, a file that does not raises its error. *)
Theorem dry_run_changes_nothing (conn : option PgConnection)
    (data_dir : string) (w : world) :
  (fs (process_files conn true w).2 = fs w ∧
   db (process_files conn true w).2 = db w) ∧
  (fs (main data_dir true w).2 = fs w ∧
   db (main data_dir true w).2 = db w) ∧
  (∀ p shop cash v,
     process_file conn true (p, shop, cash) v =
       match (read_csv_file p shop cash v).1 with
       | Ok rows =>
           (Ok (), printed DryRunNote
                     (printed (RowsToLoad (length rows))
                        (printed (Processing p shop cash) v)))
       | Raise e => (Raise e, printed (Processing p shop cash) v)
       end).
Proof.
  assert (∀ c, fs (process_files c true w).2 = fs w ∧
               db (process_files c true w).2 = db w) as Hrun.
  { intros c. rewrite process_files_unfold.
    destruct (omap accepted (fs w)) as [|f files]; [done|].
    by destruct (for_each_dry_frame c (f :: files)
                   (printed (Found (length (f :: files))) (listed w)))
      as [-> ->]. }
  split; [apply Hrun|]. split.
  - unfold main. destruct data_dir_exists; simpl; [|done].
    unfold bind, print.
    pose proof (process_files_unfold None true (printed DryRunStart w)) as Hu.
    destruct (omap accepted (fs (printed DryRunStart w))) as [|f files];
      rewrite Hu; [done|].
    by destruct (for_each_dry_frame None (f :: files)
                   (printed (Found (length (f :: files)))
                            (listed (printed DryRunStart w))))
      as [-> ->].
  - intros p shop cash v.
    destruct ((read_csv_file p shop cash v).1) as [rows|exc] eqn:Hread.
    + by apply process_file_dry.
    + by apply process_file_unparsed.
Qed.

(** C1.  When the files found are [pre], then the file [p], then [post],
    the files of [pre] have been processed normally and the file [p] does
    not parse, the exception of the parser leaves [process_files]: the
    run ends there with that exception, in the world the files of [pre]
    have left, the only trace of [p] being the line that announces it.
    The files of [post] play no part in the outcome, and every regular
    file of the directory whose name is not in [pre] is still there. *)
Theorem parse_failure_aborts_run (conn : option PgConnection)
    (dry_run : bool) (w w0 w1 : world) (pre post : list (string * Z * Z))
    (p : string) (shop cash : Z) (e : exn) :
  find_csv_files w = (Ok (pre ++ (p, shop, cash) :: post), w0) →
  for_each (process_file conn dry_run) pre
    (printed (Found (length (pre ++ (p, shop, cash) :: post))) w0)
    = (Ok (), w1) →
  (read_csv_file p shop cash w1).1 = Raise e →
  process_files conn dry_run w =
    (Raise e, printed (Processing p shop cash) w1) ∧
  (∀ g, g ∈ fs w → is_file g = true → (∀ f, f ∈ pre → name g ≠ f.1.1) →
        g ∈ fs w1).
Proof.
  intros Hfind Hpre Hread. split.
  - unfold process_files, bind. rewrite Hfind.
    assert (∀ files : list (string * Z * Z), files ≠ [] →
              match files with
              | [] => print NoFiles
              | _ => λ v, match print (Found (length files)) v with
                          | (Ok _, v') =>
                              for_each (process_file conn dry_run) files v'
                          | (Raise exc, v') => (Raise exc, v')
                          end
              end w0 =
              for_each (process_file conn dry_run) files
                       (printed (Found (length files)) w0)) as Hmatch.
    { intros [|f files] Hne; done. }
    rewrite Hmatch by (by destruct pre).
    rewrite for_each_app. unfold bind. rewrite Hpre.
    apply for_each_cons_raise. by apply process_file_unparsed.
  - intros g Hg Hf Hne.
    rewrite find_csv_files_spec in Hfind. injection Hfind as Hfiles <-.
    pose proof (for_each_process_file_keeps conn dry_run pre
                  (printed (Found (length (pre ++ (p, shop, cash) :: post)))
                           (listed w)) g Hg Hf Hne) as Hk.
    unfold listed in Hk. by rewrite Hpre in Hk.
Qed.

(** ** The claim about discovery *)

Lemma accepted_is_Some (e : entry) :
  is_Some (accepted e) ↔
  is_file e = true ∧ is_Some (FILENAME_PATTERN_match (name e)).
Proof.
  unfold accepted. destruct (is_file e).
  - rewrite fmap_is_Some. split; [by intros ?; split|by intros [_ ?]].
  - split; [by intros [? ?]|by intros [? _]].
Qed.

Lemma length_omap_accepted (entries : list entry) :
  length (omap accepted entries) =
  length (filter (λ e, is_file e = true ∧
                       is_Some (FILENAME_PATTERN_match (name e))) entries).
Proof.
  induction entries as [|e entries IH]; [done|].
  rewrite filter_cons. cbn [omap list_omap].
  pose proof (accepted_is_Some e) as Hacc.
  destruct (accepted e) as [f|]; case_decide as Hd; simpl.
  - by rewrite IH.
  - destruct Hd. apply Hacc. eauto.
  - apply Hacc in Hd as [f Hf]. done.
  - done.
Qed.

Lemma skip_note_Some (e : entry) (m : message) :
  skip_note e = Some m ↔
  is_file e = true ∧ FILENAME_PATTERN_match (name e) = None ∧
  m = Skipping (name e).
Proof.
  unfold skip_note. destruct (is_file e); [|by split; [|intros [? _]]].
  destruct (FILENAME_PATTERN_match (name e)); split.
  - done.
  - by intros (_ & ? & _).
  - by intros [= <-].
  - by intros (_ & _ & ->).
Qed.

Lemma FILENAME_PATTERN_match_None (p : string) :
  FILENAME_PATTERN_match p = None ↔ ∀ g1 g2, ¬ match_groups p g1 g2.
Proof.
  split.
  - intros Hn g1 g2 Hm. apply FILENAME_PATTERN_match_iff in Hm. congruence.
  - intros Hn. destruct (FILENAME_PATTERN_match p) as [[g1 g2]|] eqn:Hm;
      [|done].
    apply FILENAME_PATTERN_match_iff in Hm. by destruct (Hn g1 g2).
Qed.

(** C4, amended.  [find_csv_files] looks at the names of the regular files
    only.  A regular file of the directory is accepted exactly when its
    name belongs to the pattern: [find_csv_files] then returns it with the
    two integers its name spells.  A regular file whose name does not
    belong to the pattern gets a line on the console and no triple, is
    still in the directory when the run is over, and does not count: the
    number of files found, which the run prints, is the number of regular
    files whose names match.  Listing changes neither the directory nor
    the database and always ends normally. *)
Theorem files_are_accepted_by_name (conn : option PgConnection)
    (dry_run : bool) (w : world) (e : entry) :
  e ∈ fs w → is_file e = true →
  ∃ files notes,
    find_csv_files w = (Ok files, World (fs w) (db w) (stdout w ++ notes)) ∧
    (∀ shop cash,
       (name e, shop, cash) ∈ files ↔
       ∃ g1 g2, match_groups (name e) g1 g2 ∧
                shop = int_digits g1 ∧ cash = int_digits g2) ∧
    (Skipping (name e) ∈ notes ↔ ∀ g1 g2, ¬ match_groups (name e) g1 g2) ∧
    ((∀ g1 g2, ¬ match_groups (name e) g1 g2) →
     e ∈ fs (process_files conn dry_run w).2) ∧
    length files =
      length (filter (λ e', is_file e' = true ∧
                            is_Some (FILENAME_PATTERN_match (name e')))
                     (fs w)) ∧
    (files ≠ [] →
     process_files conn dry_run w =
       for_each (process_file conn dry_run) files
         (printed (Found (length files))
                  (World (fs w) (db w) (stdout w ++ notes)))).
Proof.
  intros He Hf.
  exists (omap accepted (fs w)), (omap skip_note (fs w)).
  split; [apply find_csv_files_spec|].
  assert (∀ f, f ∈ omap accepted (fs w) →
               ∃ g1 g2, match_groups f.1.1 g1 g2) as Hnames.
  { intros [[q s] c] (e' & _ & Hacc)%list_elem_of_omap.
    apply accepted_Some in Hacc as (_ & -> & g1 & g2 & Hm & _). eauto. }
  split; [|split; [|split; [|split]]].
  - intros shop cash. rewrite list_elem_of_omap. split.
    + intros (e' & _ & Hacc).
      apply accepted_Some in Hacc as (_ & -> & Hg). done.
    + intros Hg. exists e. split; [done|]. by apply accepted_Some.
  - rewrite list_elem_of_omap. split.
    + intros (e' & _ & Hs).
      apply skip_note_Some in Hs as (_ & Hn & [= ->]).
      by apply FILENAME_PATTERN_match_None.
    + intros Hn. exists e. split; [done|].
      apply skip_note_Some. by rewrite FILENAME_PATTERN_match_None.
  - intros Hn. rewrite process_files_unfold.
    destruct (omap accepted (fs w)) as [|f files] eqn:Hfiles; [done|].
    apply for_each_process_file_keeps; [done|done|].
    intros f' Hin Heq. destruct (Hnames f' Hin) as (g1 & g2 & Hm).
    rewrite <- Heq in Hm. by destruct (Hn g1 g2).
  - apply length_omap_accepted.
  - intros Hne. rewrite process_files_unfold.
    by destruct (omap accepted (fs w)).
Qed.

(** ** The claims about parsing *)

Lemma read_csv_file_open (p : string) (shop cash : Z)
    (csv : list (list string)) (w : world) :
  lookup_entry p (fs w) = Some (RegularFile csv) →
  read_csv_file p shop cash w = (parse_csv csv shop cash p, w).
Proof. intros H. unfold read_csv_file, open_file. by rewrite H. Qed.

(** C5.  When the header of an accepted file lacks a required column,
    [read_csv_file] raises the error about the columns, which names the
    file, and returns no row; the step of that file ends with this
    exception, having touched nothing. *)
Theorem incomplete_header_fails_file (p : string) (shop cash : Z)
    (csv : list (list string)) (w : world) (k : string) :
  lookup_entry p (fs w) = Some (RegularFile csv) →
  k ∈ required_fields →
  k ∉ default [] (fieldnames csv) →
  read_csv_file p shop cash w = (Raise (ValueError_columns p), w) ∧
  (∀ conn dry_run,
     process_file conn dry_run (p, shop, cash) w =
       (Raise (ValueError_columns p), printed (Processing p shop cash) w)).
Proof.
  intros Hfile Hk Hmissing.
  assert (read_csv_file p shop cash w = (Raise (ValueError_columns p), w))
    as Hread.
  { rewrite (read_csv_file_open _ _ _ csv) by done. unfold parse_csv.
    destruct (issubset required_fields _) eqn:Hsub; [|done].
    destruct Hmissing. by apply (proj1 (issubset_true _ _) Hsub). }
  split; [done|]. intros conn dry_run.
  apply process_file_unparsed. by rewrite Hread.
Qed.

(** The loop over the rows stops at the first row whose conversion
    raises, and reports the number it has counted up to. *)
Lemma read_rows_first_failure (fields : list string) (shop cash : Z)
    (file : string) (n : nat) (pre post : list (list string))
    (row : list string) (acc : list sales_row) (exc : exn) :
  Forall (λ r, ∀ e, convert_row (DictReader_row fields r) shop cash file
                      ≠ Raise e) pre →
  convert_row (DictReader_row fields row) shop cash file = Raise exc →
  read_rows fields shop cash file n (pre ++ row :: post) acc =
    Raise (ValueError_row (n + length pre) file exc).
Proof.
  intros Hpre Hrow. revert n acc.
  induction Hpre as [|r pre Hr Hpre IH]; intros n acc; simpl.
  - rewrite Hrow. by rewrite Nat.add_0_r.
  - destruct (convert_row _ _ _ _) as [x|e] eqn:Hx; [|by destruct (Hr e)].
    rewrite IH. do 2 f_equal. lia.
Qed.

(** Among the rows, one at least fails: there is a first one. *)
Lemma first_failure (fields : list string) (shop cash : Z) (file : string)
    (rows : list (list string)) :
  Exists (λ r, ∃ e, convert_row (DictReader_row fields r) shop cash file
                      = Raise e) rows →
  ∃ pre row post exc,
    rows = pre ++ row :: post ∧
    Forall (λ r, ∀ e, convert_row (DictReader_row fields r) shop cash file
                        ≠ Raise e) pre ∧
    convert_row (DictReader_row fields row) shop cash file = Raise exc.
Proof.
  induction rows as [|r rows IH]; intros Hex.
  - by apply Exists_nil in Hex.
  - destruct (convert_row (DictReader_row fields r) shop cash file)
      as [x|e] eqn:Hr.
    + apply Exists_cons in Hex as [[e He]|Hex]; [congruence|].
      destruct (IH Hex) as (pre & row & post & exc & -> & Hpre & Hrow).
      exists (r :: pre), row, post, exc. split; [done|]. split; [|done].
      constructor; [|done]. intros e. congruence.
    + exists [], r, rows, e. by repeat split.
Qed.

(** A cell that is no integer or no decimal makes the conversion of its
    row raise. *)
Lemma convert_row_bad_cell (d : gmap string (option string)) (shop cash : Z)
    (file : string) :
  (∃ s, d !! "amount" = Some (Some s) ∧ int_of_str s = None) ∨
  (∃ s, d !! "price" = Some (Some s) ∧ Decimal_of_str s = None) ∨
  (∃ s, d !! "discount" = Some (Some s) ∧ Decimal_of_str s = None) →
  ∃ exc, convert_row d shop cash file = Raise exc.
Proof.
  intros Hbad. unfold convert_row, getitem.
  destruct (d !! "doc_id") as [[s1|]|]; simpl; eauto.
  destruct (d !! "item") as [[s2|]|]; simpl; eauto.
  destruct (d !! "category") as [[s3|]|]; simpl; eauto.
  destruct (d !! "amount") as [[s4|]|]; simpl; eauto.
  destruct (int_of_str s4) as [n|] eqn:Hn; simpl; eauto.
  destruct (d !! "price") as [[s5|]|]; simpl; eauto.
  destruct (Decimal_of_str s5) as [x|] eqn:Hx; simpl; eauto.
  destruct (d !! "discount") as [[s6|]|]; simpl; eauto.
  destruct (Decimal_of_str s6) as [y|] eqn:Hy; simpl; eauto.
  destruct Hbad as [(s & [= <-] & ?)|[(s & [= <-] & ?)|(s & [= <-] & ?)]];
    congruence.
Qed.

(** C6, amended.  When the conversion of some data row of an accepted
    file raises, [read_csv_file] raises and returns no row.  The error
    names the file and carries the cause and the line number of the first
    such row: 2 for the first data row, the header being line 1, and one
    more for each further row the reader yields (blank rows, which it
    passes over, are not counted). *)
Theorem row_failure_aborts_file (p : string) (shop cash : Z)
    (csv : list (list string)) (w : world) :
  lookup_entry p (fs w) = Some (RegularFile csv) →
  (∀ k, k ∈ required_fields → k ∈ default [] (fieldnames csv)) →
  Exists (λ r, ∃ e, convert_row (DictReader_row (default [] (fieldnames csv)) r)
                      shop cash p = Raise e)
         (DictReader_rows csv) →
  ∃ pre row post exc,
    DictReader_rows csv = pre ++ row :: post ∧
    Forall (λ r, ∀ e,
              convert_row (DictReader_row (default [] (fieldnames csv)) r)
                shop cash p ≠ Raise e) pre ∧
    convert_row (DictReader_row (default [] (fieldnames csv)) row)
      shop cash p = Raise exc ∧
    read_csv_file p shop cash w =
      (Raise (ValueError_row (length pre + 2) p exc), w).
Proof.
  intros Hfile Hheader Hex.
  destruct (first_failure _ _ _ _ _ Hex)
    as (pre & row & post & exc & Hrows & Hpre & Hrow).
  exists pre, row, post, exc. repeat split; try done.
  rewrite (read_csv_file_open _ _ _ csv) by done. unfold parse_csv.
  rewrite (proj2 (issubset_true _ _) Hheader). simpl negb. cbv iota.
  rewrite Hrows, (read_rows_first_failure _ _ _ _ _ _ _ _ _ exc) by done.
  do 3 f_equal. lia.
Qed.

(** ** The claim about the stamps *)

Lemma convert_row_Ok (d : gmap string (option string)) (shop cash : Z)
    (file : string) (r : sales_row) :
  convert_row d shop cash file = Ok r →
  shop_num r = shop ∧ cash_num r = cash ∧ file_name r = file.
Proof.
  unfold convert_row.
  destruct (getitem d "doc_id" ≫= cell_strip); [|done]; simpl.
  destruct (getitem d "item" ≫= cell_strip); [|done]; simpl.
  destruct (getitem d "category" ≫= cell_strip); [|done]; simpl.
  destruct (getitem d "amount" ≫= cell_int); [|done]; simpl.
  destruct (getitem d "price" ≫= cell_Decimal); [|done]; simpl.
  destruct (getitem d "discount" ≫= cell_Decimal); [|done]; simpl.
  by intros [= <-].
Qed.

Lemma read_rows_stamped (fields : list string) (shop cash : Z)
    (file : string) (n : nat) (reader : list (list string))
    (acc rows : list sales_row) :
  read_rows fields shop cash file n reader acc = Ok rows →
  Forall (λ r, shop_num r = shop ∧ cash_num r = cash ∧ file_name r = file)
         acc →
  Forall (λ r, shop_num r = shop ∧ cash_num r = cash ∧ file_name r = file)
         rows.
Proof.
  revert n acc. induction reader as [|row reader IH]; intros n acc; simpl.
  - by intros [= <-].
  - destruct (convert_row _ _ _ _) as [r|e] eqn:Hr; [|done].
    intros Hrows Hacc. apply (IH _ _ Hrows).
    apply Forall_app. split; [done|].
    constructor; [|done]. by apply convert_row_Ok in Hr.
Qed.

Lemma read_csv_file_stamped (p : string) (shop cash : Z) (w : world)
    (rows : list sales_row) :
  (read_csv_file p shop cash w).1 = Ok rows →
  Forall (λ r, shop_num r = shop ∧ cash_num r = cash ∧ file_name r = p) rows.
Proof.
  unfold read_csv_file. simpl. destruct (open_file p (fs w)) as [csv|e];
    [|done]. simpl. unfold parse_csv.
  destruct (negb _); [done|]. intros Hrows.
  by apply (read_rows_stamped _ _ _ _ _ _ _ _ Hrows).
Qed.

(** What a step of a normal run adds to the table: nothing, or the rows
    parsed from its file. *)
Lemma process_file_committed (conn : option PgConnection) (dry_run : bool)
    (p : string) (shop cash : Z) (w : world) :
  pending (db w) = [] →
  pending (db (process_file conn dry_run (p, shop, cash) w).2) = [] ∧
  ∃ added,
    committed (db (process_file conn dry_run (p, shop, cash) w).2) =
      committed (db w) ++ added ∧
    Forall (λ r, shop_num r = shop ∧ cash_num r = cash ∧ file_name r = p)
           added.
Proof.
  intros Hpending.
  assert (∀ v : world, db v = db w →
            pending (db v) = [] ∧
            ∃ added, committed (db v) = committed (db w) ++ added ∧
              Forall (λ r, shop_num r = shop ∧ cash_num r = cash ∧
                           file_name r = p) added) as Hsame.
  { intros v ->. split; [done|]. exists []. by rewrite app_nil_r. }
  destruct ((read_csv_file p shop cash w).1) as [rows|exc] eqn:Hread.
  2:{ rewrite (process_file_unparsed _ _ _ _ _ _ exc Hread). by apply Hsame. }
  destruct dry_run.
  { rewrite (process_file_dry _ _ _ _ _ rows Hread). by apply Hsame. }
  destruct conn as [conn|].
  2:{ rewrite (process_file_no_connection _ _ _ _ rows Hread).
      by apply Hsame. }
  rewrite (process_file_parsed _ _ _ _ _ rows Hread).
  set (wq := printed _ (printed _ w)).
  destruct (transaction_outcome conn rows wq)
    as (r & wa & -> & _ & _ & Hp & Hc).
  change (db wq) with (db w) in Hc. rewrite Hpending in Hc. simpl in Hc.
  destruct r as [[]|exc].
  - destruct (move_file_to_processed_inv p wa) as (r & wb & -> & Hdb & _).
    assert (pending (db wb) = [] ∧
            ∃ added, committed (db wb) = committed (db w) ++ added ∧
              Forall (λ r, shop_num r = shop ∧ cash_num r = cash ∧
                           file_name r = p) added) as Hwb.
    { rewrite Hdb. split; [done|]. exists rows. split; [done|].
      by apply (read_csv_file_stamped _ _ _ w). }
    by destruct r as [[]|exc].
  - simpl. split; [done|]. exists []. by rewrite app_nil_r.
Qed.

Lemma for_each_process_file_committed (conn : option PgConnection)
    (dry_run : bool) (files : list (string * Z * Z)) (w : world) :
  pending (db w) = [] →
  Forall (λ f, ∃ g1 g2, match_groups f.1.1 g1 g2 ∧
                        f.1.2 = int_digits g1 ∧ f.2 = int_digits g2) files →
  pending (db (for_each (process_file conn dry_run) files w).2) = [] ∧
  ∃ added,
    committed (db (for_each (process_file conn dry_run) files w).2) =
      committed (db w) ++ added ∧
    Forall stamped_by_name added.
Proof.
  intros Hpending Hfiles. revert w Hpending.
  induction Hfiles as [|[[p shop] cash] files Hf Hfiles IH];
    intros w Hpending.
  { simpl. split; [done|]. exists []. by rewrite app_nil_r. }
  cbn [for_each]. unfold bind.
  destruct (process_file_committed conn dry_run p shop cash w Hpending)
    as (Hp1 & added1 & Hc1 & Hs1).
  assert (Forall stamped_by_name added1) as Hs1'.
  { eapply Forall_impl; [|exact Hs1]. intros r (Hs & Hc & Hn).
    destruct Hf as (g1 & g2 & Hm & Hg1 & Hg2). simpl in *.
    exists g1, g2. by rewrite Hn, Hs, Hc. }
  destruct (process_file conn dry_run (p, shop, cash) w) as [[[]|exc] v].
  - simpl in Hp1, Hc1. destruct (IH v Hp1) as (Hp2 & added2 & Hc2 & Hs2).
    split; [done|]. exists (added1 ++ added2).
    split; [by rewrite Hc2, Hc1, app_assoc|]. by apply Forall_app.
  - simpl in *. split; [done|]. by exists added1.
Qed.


End Properties.

(** * The pipeline on concrete inputs *)

(** The scenario of the specification: after a normal run over a
    directory holding [3_2.csv] with one row, the table holds that one
    record and the file is in the processed area. *)
Example run_3_2 :
  let w := initial_world [Entry "3_2.csv" (RegularFile [header; towel])] in
  let w' := (process_files (env := reliable) (Some Connection) false w).2 in
  committed (db w') = [towel_row] ∧
  lookup_entry "3_2.csv" (fs w') = None ∧
  lookup_entry "processed" (fs w') =
    Some (Directory [Entry "3_2.csv" (RegularFile [header; towel])]).
Proof. vm_compute. done. Qed.

(** The name pattern on a few names; a final newline is let through by
    [$]. *)
Example pattern_samples :
  FILENAME_PATTERN_match (env := reliable) "12_007.csv" = Some ("12", "007") ∧
  FILENAME_PATTERN_match (env := reliable) ("1_2.csv" +:+ newline)
    = Some ("1", "2") ∧
  FILENAME_PATTERN_match (env := reliable) "1_2.CSV" = None ∧
  FILENAME_PATTERN_match (env := reliable) "_2.csv" = None ∧
  FILENAME_PATTERN_match (env := reliable) "1_2.csv.bak" = None ∧
  int_digits (env := reliable) "007" = 7%Z.
Proof. vm_compute. done. Qed.

(** Digits of other scripts belong to [\d], and [int] reads them: the
    names below are accepted with the numbers they spell.  Characters that
    are no decimal digits (a superscript two, a letter with an accent) are
    not. *)
Example pattern_samples_beyond_ascii :
  accepted (env := reliable) (Entry "١_٢.csv" (RegularFile []))
    = Some ("١_٢.csv", 1%Z, 2%Z) ∧
  accepted (env := reliable) (Entry "1٢_０3.csv" (RegularFile []))
    = Some ("1٢_０3.csv", 12%Z, 3%Z) ∧
  accepted (env := reliable) (Entry "०१२_۴.csv" (RegularFile []))
    = Some ("०१२_۴.csv", 12%Z, 4%Z) ∧
  FILENAME_PATTERN_match (env := reliable) "²_2.csv" = None ∧
  FILENAME_PATTERN_match (env := reliable) "é_2.csv" = None ∧
  chars "a١０😀" = ["a"; "١"; "０"; "😀"].
Proof. vm_compute. done. Qed.

Lemma parse_failure_aborts_run_witness :
  let w := initial_world mixed_directory in
  let w0 := (find_csv_files (env := reliable) w).2 in
  let w1 :=
    (for_each (process_file (env := reliable) (Some Connection) false)
              [("3_2.csv", 3%Z, 2%Z)] (printed (Found 3) w0)).2 in
  process_files (env := reliable) (Some Connection) false w =
    (Raise (ValueError_columns "9_1.csv"),
     printed (Processing "9_1.csv" 9 1) w1) ∧
  Entry "4_1.csv" (RegularFile [header; ["X"; " Y "; "c"; "1"; "5"; "0"]])
    ∈ fs w1.
Proof.
  intros w w0 w1.
  destruct (parse_failure_aborts_run (env := reliable) (Some Connection)
              false w w0 w1 [("3_2.csv", 3%Z, 2%Z)] [("4_1.csv", 4%Z, 1%Z)]
              "9_1.csv" 9 1 (ValueError_columns "9_1.csv"))
    as [Hrun Hkeep]; [by vm_compute..|].
  split; [exact Hrun|].
  apply Hkeep.
  - vm_compute. by do 3 right; left.
  - done.
  - intros f [->|[]%elem_of_nil]%elem_of_cons. done.
Defined.

Lemma load_failure_is_isolated_witness :
  let w := initial_world returns_directory in
  ∃ w',
    process_file (env := constrained) (Some Connection) false
                 ("4_1.csv", 4%Z, 1%Z) w = (Ok (), w') ∧
    stdout w' = [Processing "4_1.csv" 4 1; RowsToLoad 1;
                 LoadError "4_1.csv" (DatabaseError "check constraint")] ∧
    fs w' = returns_directory ∧
    committed (db w') = [].
Proof.
  intros w.
  destruct (load_failure_is_isolated (env := constrained) Connection
              "4_1.csv" 4 1 [("5_1.csv", 5%Z, 1%Z)] w [returned_row]
              (DatabaseError "check constraint"))
    as (w' & Hstep & Hout & Hfs & Hc & _ & _); [by vm_compute..|].
  exists w'. by repeat split.
Defined.

(** A batch of 1001 rows spans two pages; the server refuses the last
    row: nothing of the batch is in the table afterwards. *)
Lemma load_is_all_or_nothing_witness :
  let w := initial_world [] in
  pending (db w) = [] ∧
  ∃ e w',
    with_conn (env := constrained) Connection
              (insert_rows (env := constrained) Connection large_batch) w
      = (Raise e, w') ∧
    committed (db w') = [] ∧ pending (db w') = [].
Proof.
  intros w. split; [reflexivity|].
  destruct (load_is_all_or_nothing (env := constrained) Connection
              large_batch w eq_refl)
    as (r & w' & Heq & _ & _ & Hp & Hc & Hrefused & _).
  destruct (Hrefused (replicate 1000 towel_row) returned_row []
              "check constraint" eq_refl eq_refl) as [e ->].
  exists e, w'. split; [exact Heq|]. split; [exact Hc|exact Hp].
Defined.

(** A sub-directory named [7_7.csv]: its name matches the pattern, and
    [find_csv_files] does not return it. *)
Lemma matching_directory_is_not_accepted :
  ¬ accepts_every_entry_by_name (env := reliable).
Proof.
  intros Hclaim.
  pose (e := Entry "7_7.csv" (Directory [])).
  destruct (Hclaim (initial_world [e]) (initial_world [e]) [] e)
    as [_ Hback].
  - by left.
  - reflexivity.
  - destruct Hback as (shop & cash & Hin).
    + exists "7", "7". apply FILENAME_PATTERN_match_iff. by vm_compute.
    + by apply elem_of_nil in Hin.
Qed.

Lemma files_are_accepted_by_name_witness :
  let w := initial_world mixed_directory in
  let e := Entry "notes.txt" (RegularFile []) in
  e ∈ fs w ∧ is_file e = true ∧
  e ∈ fs (process_files (env := reliable) (Some Connection) false w).2 ∧
  ∃ files notes,
    find_csv_files (env := reliable) w =
      (Ok files, World (fs w) (db w) (stdout w ++ notes)) ∧
    Skipping "notes.txt" ∈ notes ∧ length files = 3.
Proof.
  intros w e.
  assert (e ∈ fs w) as He by (vm_compute; by left).
  destruct (files_are_accepted_by_name (env := reliable) (Some Connection)
              false w e He eq_refl)
    as (files & notes & Hfind & _ & Hskip & Hkeep & Hlen & _).
  assert (∀ g1 g2, ¬ match_groups (env := reliable) (name e) g1 g2) as Hno.
  { by apply FILENAME_PATTERN_match_None. }
  repeat split; [done|by apply Hkeep|].
  exists files, notes. split; [done|]. split; [by apply Hskip|].
  rewrite Hlen. by vm_compute.
Defined.

Lemma incomplete_header_fails_file_witness :
  let w := initial_world mixed_directory in
  "category" ∈ required_fields ∧
  read_csv_file (env := reliable) "9_1.csv" 9 1 w =
    (Raise (ValueError_columns "9_1.csv"), w).
Proof.
  intros w.
  assert ("category" ∈ required_fields) as Hk.
  { apply (bool_decide_unpack _). by vm_compute. }
  split; [done|].
  refine (proj1 (incomplete_header_fails_file (env := reliable) "9_1.csv"
                   9 1 _ w "category" eq_refl Hk _)).
  apply (bool_decide_unpack _). by vm_compute.
Defined.

(** With one data row, and that row malformed, the error carries the
    line number 2, not 1. *)
Lemma line_number_is_not_data_row_index :
  ¬ reports_data_row_index (H := reliable).
Proof.
  intros Hclaim.
  destruct (Hclaim "9_1.csv" 9%Z 1%Z malformed_first
              (initial_world [Entry "9_1.csv" (RegularFile malformed_first)])
              0%nat ["X"; "Y"; "c"; "abc"; "5"; "0"])
    as [exc Hread].
  - reflexivity.
  - apply issubset_true. by vm_compute.
  - reflexivity.
  - eexists. by vm_compute.
  - vm_compute in Hread. discriminate Hread.
Qed.

Lemma row_failure_aborts_file_witness :
  let w := initial_world [Entry "4_1.csv" (RegularFile malformed_later)] in
  read_csv_file (env := reliable) "4_1.csv" 4 1 w =
    (Raise (ValueError_row 3 "4_1.csv" (ValueError_int "z")), w).
Proof.
  intros w.
  destruct (row_failure_aborts_file (env := reliable) "4_1.csv" 4 1
              malformed_later w eq_refl)
    as (pre & row & post & exc & _ & _ & _ & Hread).
  - apply issubset_true. by vm_compute.
  - apply Exists_cons_tl, Exists_cons_hd. eexists. by vm_compute.
  - rewrite Hread. by vm_compute.
Defined.

(** The load of [3_2.csv] commits and the rename is refused: the step
    ends normally, the row is in the table, the file is where it was. *)
Lemma move_follows_commit_witness :
  let w := initial_world [Entry "3_2.csv" (RegularFile [header; towel])] in
  pending (db w) = [] ∧
  ∃ w',
    process_file (env := read_only_directory) (Some Connection) false
                 ("3_2.csv", 3%Z, 2%Z) w = (Ok (), w') ∧
    db w' = Database [towel_row] [] ∧
    stdout w' = [Processing "3_2.csv" 3 2; RowsToLoad 1;
                 LoadError "3_2.csv" (OSError "permission denied")].
Proof.
  intros w. split; [reflexivity|].
  destruct (move_follows_commit (env := read_only_directory) Connection
              "3_2.csv" 3 2 [] w [towel_row])
    as (w' & Hstep & _ & _); [by vm_compute..|].
  exists w'. split; [exact Hstep|].
  vm_compute in Hstep. injection Hstep as <-. by vm_compute.
Defined.


Lemma empty_file_is_loaded_witness :
  let w := initial_world [Entry "5_1.csv" (RegularFile [header])] in
  is_Some (FILENAME_PATTERN_match (env := reliable) "5_1.csv") ∧
  DictReader_rows [header] = [] ∧
  ∃ w',
    process_file (env := reliable) (Some Connection) false
                 ("5_1.csv", 5%Z, 1%Z) w = (Ok (), w') ∧
    db w' = db w ∧
    lookup_entry "5_1.csv" (fs w') = None ∧
    stdout w' = [Processing "5_1.csv" 5 1; RowsToLoad 0; Moved "5_1.csv"].
Proof.
  intros w.
  assert (is_Some (FILENAME_PATTERN_match (env := reliable) "5_1.csv")) as Hacc.
  { eexists. by vm_compute. }
  split; [exact Hacc|]. split; [reflexivity|].
  destruct (empty_file_is_loaded (env := reliable) Connection "5_1.csv" 5 1
              [header] w Hacc eq_refl) as (_ & _ & Hstep).
  - apply issubset_true. by vm_compute.
  - reflexivity.
  - destruct Hstep as (w' & Hrun & Hdb & Hgone & _ & Hout).
    + reflexivity.
    + reflexivity.
    + intros call entries. reflexivity.
    + by vm_compute.
    + exists w'. split; [exact Hrun|]. split; [exact Hdb|].
      split; [exact Hgone|exact Hout].
Defined.

(** * Further properties of the loader *)

Section Discovery.

Context {env : Environment}.

Lemma int_digits_from_nonneg (cs : list string) (acc : Z) :
  (0 ≤ acc)%Z → (0 ≤ int_digits_from acc cs)%Z.
Proof.
  revert acc. induction cs as [|c cs IH]; intros acc Hacc; simpl; [done|].
  apply IH. lia.
Qed.

(** X1.  An entry that is not a regular file is invisible to
    [find_csv_files]: with or without it in the listing, the same files
    are returned and the same notes printed, whatever its name. *)
Theorem find_csv_files_skips_non_files (l1 l2 : list entry) (e : entry)
    (d : database) (out : list message) :
  is_file e = false →
  (find_csv_files (World (l1 ++ e :: l2) d out)).1 =
    (find_csv_files (World (l1 ++ l2) d out)).1 ∧
  stdout (find_csv_files (World (l1 ++ e :: l2) d out)).2 =
    stdout (find_csv_files (World (l1 ++ l2) d out)).2.
Proof.
  intros Hf. rewrite !find_csv_files_spec. simpl.
  rewrite !omap_app. cbn [omap list_omap].
  unfold accepted at 2, skip_note at 2. by rewrite Hf.
Qed.

(** X2.  The shop and till numbers [find_csv_files] returns are never
    negative. *)
Theorem accepted_numbers_are_not_negative (w w0 : world)
    (files : list (string * Z * Z)) (p : string) (shop cash : Z) :
  find_csv_files w = (Ok files, w0) →
  (p, shop, cash) ∈ files →
  (0 ≤ shop)%Z ∧ (0 ≤ cash)%Z.
Proof.
  rewrite find_csv_files_spec. intros [= <- _] (e & _ & Hacc)%list_elem_of_omap.
  apply accepted_Some in Hacc as (_ & _ & g1 & g2 & Hm & -> & ->).
  split; by apply int_digits_from_nonneg.
Qed.

End Discovery.

Section Parsing.

Context {env : Environment}.

Lemma read_rows_Ok_iff (fields : list string) (shop cash : Z) (file : string)
    (n : nat) (reader : list (list string)) (acc rows : list sales_row) :
  read_rows fields shop cash file n reader acc = Ok rows ↔
  ∃ new, rows = acc ++ new ∧
    Forall2 (λ row r, convert_row (DictReader_row fields row) shop cash file
                        = Ok r) reader new.
Proof.
  revert n acc. induction reader as [|row reader IH]; intros n acc; simpl.
  - split.
    + intros [= <-]. exists []. by rewrite app_nil_r.
    + intros (new & -> & ->%Forall2_nil_inv_l). by rewrite app_nil_r.
  - destruct (convert_row _ _ _ _) as [r|e] eqn:Hr.
    + rewrite IH. split.
      * intros (new & -> & Hnew). exists (r :: new).
        split; [by rewrite <- app_assoc|]. by constructor.
      * intros (new & -> & Hnew).
        apply Forall2_cons_inv_l in Hnew as (r' & new' & Hr' & Hnew' & ->).
        exists new'. split; [|done]. rewrite <- app_assoc.
        by replace r' with r by congruence.
    + split; [done|]. intros (new & _ & Hnew).
      apply Forall2_cons_inv_l in Hnew as (r' & new' & Hr' & _). congruence.
Qed.

(** X3.  [read_csv_file] returns rows exactly when the path is a regular
    file whose header has every required column and every data row the
    reader yields converts; the rows returned are then the converted
    rows, one per data row and in the order of the file. *)
Theorem read_csv_file_Ok_iff (p : string) (shop cash : Z) (w : world)
    (rows : list sales_row) :
  (read_csv_file p shop cash w).1 = Ok rows ↔
  ∃ csv,
    lookup_entry p (fs w) = Some (RegularFile csv) ∧
    (∀ k, k ∈ required_fields → k ∈ default [] (fieldnames csv)) ∧
    Forall2 (λ row r,
               convert_row (DictReader_row (default [] (fieldnames csv)) row)
                           shop cash p = Ok r)
            (DictReader_rows csv) rows.
Proof.
  unfold read_csv_file, open_file. simpl.
  destruct (lookup_entry p (fs w)) as [[csv|ch|]|]; simpl;
    try (split; [done|by intros (csv' & [=] & _)]).
  unfold parse_csv.
  destruct (issubset required_fields _) eqn:Hsub; simpl.
  - rewrite read_rows_Ok_iff.
    pose proof (proj1 (issubset_true _ _) Hsub) as Hheader. split.
    + intros (new & -> & Hnew). exists csv. by repeat split.
    + intros (csv' & [= <-] & _ & Hnew). by exists rows.
  - split; [done|]. intros (csv' & [= <-] & Hheader & _).
    pose proof (proj2 (issubset_true _ _) Hheader). congruence.
Qed.

(** ** The dictionary of a row *)

Lemma dict_zip_notin (keys vals : list string)
    (d : gmap string (option string)) (k : string) :
  k ∉ keys → dict_zip keys vals d !! k = d !! k.
Proof.
  revert vals d. induction keys as [|k0 keys IH]; intros vals d Hk; [done|].
  destruct vals as [|v0 vals]; [done|]. simpl.
  apply not_elem_of_cons in Hk as [Hne Hk].
  rewrite IH by done. by rewrite lookup_insert_ne.
Qed.

Lemma dict_zip_lookup (keys vals : list string)
    (d : gmap string (option string)) (i : nat) (k v : string) :
  NoDup keys → keys !! i = Some k → vals !! i = Some v →
  dict_zip keys vals d !! k = Some (Some v).
Proof.
  revert vals d i. induction keys as [|k0 keys IH]; intros vals d i Hnd Hk Hv;
    [done|].
  destruct vals as [|v0 vals]; [done|]. simpl.
  apply list.NoDup_cons in Hnd as [Hk0 Hnd].
  destruct i as [|i]; simpl in *.
  - injection Hk as ->. injection Hv as ->.
    rewrite dict_zip_notin by done. by rewrite lookup_insert_eq.
  - by apply (IH _ _ i).
Qed.

Lemma dict_zip_beyond (keys vals : list string)
    (d : gmap string (option string)) (i : nat) (k : string) :
  NoDup keys → keys !! i = Some k → (length vals ≤ i)%nat →
  dict_zip keys vals d !! k = d !! k.
Proof.
  revert vals d i. induction keys as [|k0 keys IH]; intros vals d i Hnd Hk Hi;
    [done|].
  destruct vals as [|v0 vals]; [done|]. simpl.
  apply list.NoDup_cons in Hnd as [Hk0 Hnd].
  destruct i as [|i]; simpl in *; [lia|].
  rewrite (IH _ _ i) by (done || lia).
  rewrite lookup_insert_ne; [done|]. intros ->.
  apply Hk0. by eapply list_elem_of_lookup_2.
Qed.

Lemma restval_lookup (l : list string) (d : gmap string (option string))
    (k : string) :
  foldl (λ d k, <[k := None]> d) d l !! k =
    if decide (k ∈ l) then Some None else d !! k.
Proof.
  revert d. induction l as [|k0 l IH]; intros d; simpl; [done|].
  rewrite IH. destruct (decide (k ∈ l)) as [Hin|Hnin].
  - rewrite decide_True; [done|]. by right.
  - destruct (decide (k = k0)) as [->|Hne].
    + rewrite decide_True by (by left). by rewrite lookup_insert_eq.
    + rewrite decide_False; [by rewrite lookup_insert_ne|].
      by intros [?|?]%elem_of_cons.
Qed.

Lemma DictReader_row_cells (fields row : list string) :
  NoDup fields →
  (∀ i k, fields !! i = Some k →
          DictReader_row fields row !! k = Some (row !! i)) ∧
  (∀ k, k ∉ fields → DictReader_row fields row !! k = None).
Proof.
  intros Hnd. unfold DictReader_row. split.
  - intros i k Hk. destruct (row !! i) as [v|] eqn:Hv.
    + assert (dict_zip fields row ∅ !! k = Some (Some v)) as Hzip
        by by apply (dict_zip_lookup _ _ _ i).
      destruct (_ <? _)%nat; [|done].
      rewrite restval_lookup, decide_False; [done|].
      intros (j & Hj)%list_elem_of_lookup_1. rewrite lookup_drop in Hj.
      apply lookup_lt_Some in Hv.
      pose proof (proj1 (NoDup_alt fields) Hnd _ _ _ Hk Hj). lia.
    + apply lookup_ge_None in Hv. pose proof (lookup_lt_Some _ _ _ Hk) as Hi.
      destruct (Nat.ltb_spec (length row) (length fields)) as [_|?]; [|lia].
      rewrite restval_lookup, decide_True; [done|].
      apply list_elem_of_lookup_2 with (i - length row)%nat.
      rewrite lookup_drop. by replace (length row + (i - length row))%nat
        with i by lia.
  - intros k Hk.
    assert (dict_zip fields row ∅ !! k = None) as Hzip
      by by rewrite dict_zip_notin.
    destruct (_ <? _)%nat; [|done].
    rewrite restval_lookup, decide_False; [done|].
    intros Hin. apply Hk. by eapply subseteq_drop.
Qed.

(** X4.  Under a header without repeated names, the dictionary of a row
    gives, for the name of column [i], the cell at position [i] of the
    row, or [None] when the row is too short to have one; a name that is
    not in the header has no entry. *)
Theorem DictReader_row_lookup (fields row : list string) :
  NoDup fields →
  (∀ i k, fields !! i = Some k →
          DictReader_row fields row !! k = Some (row !! i)) ∧
  (∀ k, k ∉ fields → DictReader_row fields row !! k = None).
Proof. apply DictReader_row_cells. Qed.

End Parsing.

Section Rows.

Context {env : Environment}.

(** X5.  The order of the columns does not matter.  When two headers
    without repeated names, each with a row under it, give the same cell
    (or the same absence of a cell) to every column name, [row[k]] is the
    same under both for every column name [k], and the two rows have the
    same conversion. *)
Theorem column_order_is_irrelevant (fields row fields' row' : list string)
    (shop cash : Z) (file : string) :
  NoDup fields → NoDup fields' →
  (∀ k c, (∃ i, fields !! i = Some k ∧ row !! i = c) ↔
          (∃ j, fields' !! j = Some k ∧ row' !! j = c)) →
  (∀ k : string, getitem (DictReader_row fields row) k =
                 getitem (DictReader_row fields' row') k) ∧
  convert_row (DictReader_row fields row) shop cash file =
    convert_row (DictReader_row fields' row') shop cash file.
Proof.
  intros Hnd Hnd' Hsame.
  assert (DictReader_row fields row = DictReader_row fields' row') as Heq.
  { destruct (DictReader_row_cells fields row Hnd) as [Hin Hout].
    destruct (DictReader_row_cells fields' row' Hnd') as [Hin' Hout'].
    apply map_eq. intros k.
    destruct (decide (k ∈ fields)) as [Hk|Hk].
    - apply list_elem_of_lookup_1 in Hk as [i Hi].
      destruct (proj1 (Hsame k (row !! i))) as (j & Hj & Hc); [by eauto|].
      by rewrite (Hin i k Hi), (Hin' j k Hj), Hc.
    - rewrite (Hout k Hk), Hout'; [done|].
      intros [j Hj]%list_elem_of_lookup_1.
      destruct (proj2 (Hsame k (row' !! j))) as (i & Hi & _); [by eauto|].
      apply Hk. by eapply list_elem_of_lookup_2. }
  split; [intros k|]; by rewrite Heq.
Qed.

Lemma dict_zip_surplus (keys vals extra : list string)
    (d : gmap string (option string)) :
  (length keys ≤ length vals)%nat →
  dict_zip keys (vals ++ extra) d = dict_zip keys vals d.
Proof.
  revert vals d. induction keys as [|k keys IH]; intros vals d Hlen.
  - by destruct vals.
  - destruct vals as [|v vals]; simpl in *; [lia|]. apply IH. lia.
Qed.

(** X6.  Cells beyond the last column of the header do not count: for a
    row as long as the header or longer, [row[k]] for every column name [k]
    and the conversion of the row are the same whatever is appended to
    the row. *)
Theorem surplus_cells_are_ignored (fields row extra : list string)
    (shop cash : Z) (file : string) :
  (length fields ≤ length row)%nat →
  (∀ k : string, getitem (DictReader_row fields (row ++ extra)) k =
                 getitem (DictReader_row fields row) k) ∧
  convert_row (DictReader_row fields (row ++ extra)) shop cash file =
    convert_row (DictReader_row fields row) shop cash file.
Proof.
  intros Hlen.
  assert (DictReader_row fields (row ++ extra) = DictReader_row fields row)
    as Heq.
  { unfold DictReader_row. rewrite dict_zip_surplus by done.
    rewrite length_app.
    destruct (Nat.ltb_spec (length row + length extra) (length fields));
      [lia|].
    destruct (Nat.ltb_spec (length row) (length fields)); [lia|done]. }
  split; [intros k|]; by rewrite Heq.
Qed.

Lemma convert_row_None_cell (d : gmap string (option string)) (k : string)
    (shop cash : Z) (file : string) :
  k ∈ required_fields → d !! k = Some None →
  ∃ exc, convert_row d shop cash file = Raise exc.
Proof.
  intros Hk Hnone. unfold convert_row, getitem.
  destruct (d !! "doc_id") as [[s1|]|] eqn:H1; simpl; eauto.
  destruct (d !! "item") as [[s2|]|] eqn:H2; simpl; eauto.
  destruct (d !! "category") as [[s3|]|] eqn:H3; simpl; eauto.
  destruct (d !! "amount") as [[s4|]|] eqn:H4; simpl; eauto.
  destruct (int_of_str s4) as [n|]; simpl; eauto.
  destruct (d !! "price") as [[s5|]|] eqn:H5; simpl; eauto.
  destruct (Decimal_of_str s5) as [x|]; simpl; eauto.
  destruct (d !! "discount") as [[s6|]|] eqn:H6; simpl; eauto.
  destruct (Decimal_of_str s6) as [y|]; simpl; eauto.
  unfold required_fields in Hk.
  repeat (apply elem_of_cons in Hk as [->|Hk]; [congruence|]).
  by apply elem_of_nil in Hk.
Qed.

(** X7.  A data row too short to reach a required column makes
    [read_csv_file] raise: the file yields no row.  The missing cell is
    [None] in the dictionary, and its conversion raises inside the [try]. *)
Theorem truncated_row_fails_file (p : string) (shop cash : Z)
    (csv : list (list string)) (w : world) (row : list string) (k : string) :
  lookup_entry p (fs w) = Some (RegularFile csv) →
  row ∈ DictReader_rows csv →
  k ∈ required_fields →
  k ∈ drop (length row) (default [] (fieldnames csv)) →
  ∃ e, read_csv_file p shop cash w = (Raise e, w).
Proof.
  intros Hfile Hrow Hk Hbeyond.
  rewrite (read_csv_file_open _ _ _ csv) by done. unfold parse_csv.
  destruct (issubset required_fields _); simpl; [|by eauto].
  set (fields := default [] (fieldnames csv)) in *.
  assert (∃ exc, convert_row (DictReader_row fields row) shop cash p
                   = Raise exc) as Hfail.
  { apply (convert_row_None_cell _ k); [done|]. unfold DictReader_row.
    destruct (Nat.ltb_spec (length row) (length fields)) as [_|Hge].
    - by rewrite restval_lookup, decide_True.
    - rewrite drop_ge in Hbeyond by done. by apply elem_of_nil in Hbeyond. }
  destruct (first_failure fields shop cash p (DictReader_rows csv))
    as (pre & row' & post & exc & -> & Hpre & Hrow').
  { apply Exists_exists. exists row. split; [|done].
    by apply list_elem_of_In. }
  rewrite (read_rows_first_failure _ _ _ _ _ _ _ _ _ exc) by done. eauto.
Qed.

End Rows.

Section Archive.

Context {env : Environment}.

(** X8.  [insert_rows] commits nothing: whether it returns or raises,
    the committed rows and the directory are as before; when it returns,
    the batch has joined the rows pending in the transaction. *)
Theorem insert_rows_commits_nothing (conn : PgConnection)
    (rows : list sales_row) (w : world) :
  committed (db (insert_rows conn rows w).2) = committed (db w) ∧
  fs (insert_rows conn rows w).2 = fs w ∧
  ((insert_rows conn rows w).1 = Ok () →
   pending (db (insert_rows conn rows w).2) = pending (db w) ++ rows).
Proof.
  unfold insert_rows. rewrite execute_batch_unchunked.
  destruct (execute_inv rows w) as (r & w' & -> & Hfs & _ & Hc & Hp).
  simpl. by repeat split.
Qed.

Lemma mkdir_ok (w w1 : world) :
  mkdir "processed" w = (Ok (), w1) →
  db w1 = db w ∧ stdout w1 = stdout w ∧
  (∃ children, lookup_entry "processed" (fs w1) = Some (Directory children)) ∧
  (∀ q, q ≠ "processed" →
        lookup_entry q (fs w1) = lookup_entry q (fs w)) ∧
  (∀ q, archived q (fs w1) = archived q (fs w)) ∧
  (archive_ok (fs w) → archive_ok (fs w1)).
Proof.
  unfold mkdir. destruct (os_error _ _); [done|].
  destruct (lookup_entry "processed" (fs w)) as [[|ch|]|] eqn:Hdir;
    intros [= <-]; try done.
  - repeat split; try done; eauto.
  - simpl. repeat split; try done.
    + exists []. by rewrite lookup_entry_app, Hdir.
    + intros q Hq. rewrite lookup_entry_app.
      destruct (lookup_entry q (fs w)); [done|]. simpl.
      by rewrite bool_decide_eq_false_2 by done.
    + intros q. unfold archived. by rewrite lookup_entry_app, Hdir.
    + intros _. unfold archive_ok. rewrite lookup_entry_app, Hdir. simpl.
      constructor.
Qed.

Lemma rename_ok (p : string) (w1 w2 : world) :
  p ≠ "processed" →
  rename p "processed" w1 = (Ok (), w2) →
  db w2 = db w1 ∧ stdout w2 = stdout w1 ∧
  is_Some (lookup_entry p (fs w1)) ∧
  lookup_entry p (fs w2) = None ∧
  archived p (fs w2) = lookup_entry p (fs w1) ∧
  (∀ q, q ≠ p → q ≠ "processed" →
        lookup_entry q (fs w2) = lookup_entry q (fs w1)) ∧
  (∀ q, q ≠ p → archived q (fs w2) = archived q (fs w1)) ∧
  (archive_ok (fs w1) →
   (∀ c, lookup_entry p (fs w1) = Some c → ∃ csv, c = RegularFile csv) →
   archive_ok (fs w2)).
Proof.
  intros Hne. unfold rename. destruct (os_error _ _); [done|].
  destruct (lookup_entry p (fs w1)) as [c|] eqn:Hsrc; [|done].
  destruct (lookup_entry "processed" (fs w1)) as [[|ch|]|] eqn:Hdir;
    try done.
  assert (∀ v, v = set_fs (put_entry "processed"
                             (Directory (put_entry p c ch))
                             (remove_entry p (fs w1))) w1 →
            db v = db w1 ∧ stdout v = stdout w1 ∧
            is_Some (Some c) ∧
            lookup_entry p (fs v) = None ∧
            archived p (fs v) = Some c ∧
            (∀ q, q ≠ p → q ≠ "processed" →
                  lookup_entry q (fs v) = lookup_entry q (fs w1)) ∧
            (∀ q, q ≠ p → archived q (fs v) = archived q (fs w1)) ∧
            (archive_ok (fs w1) →
             (∀ c', Some c = Some c' → ∃ csv, c' = RegularFile csv) →
             archive_ok (fs v))) as Hmoved.
  { intros v ->. simpl. repeat split; try done.
    - rewrite lookup_entry_put_entry, lookup_entry_remove_entry.
      by rewrite decide_False, decide_True by done.
    - unfold archived. rewrite lookup_entry_put_entry, decide_True by done.
      by rewrite lookup_entry_put_entry, decide_True.
    - intros q Hq Hq'.
      rewrite lookup_entry_put_entry, lookup_entry_remove_entry.
      by rewrite !decide_False by done.
    - intros q Hq. unfold archived.
      rewrite lookup_entry_put_entry, decide_True by done.
      rewrite lookup_entry_put_entry, decide_False by done.
      by rewrite Hdir.
    - unfold archive_ok. rewrite Hdir.
      rewrite lookup_entry_put_entry, decide_True by done.
      intros Hch Hc. destruct (Hc c eq_refl) as [csv ->].
      clear -Hch. induction Hch as [|e ch He Hch IH]; simpl.
      + by repeat constructor.
      + case_bool_decide; constructor; done. }
  destruct (lookup_entry p ch) as [[| |]|]; try done;
    intros [= <-]; by apply Hmoved.
Qed.

(** What a move that succeeds has done. *)
Lemma move_file_to_processed_effect (p : string) (w w' : world) :
  p ≠ "processed" →
  move_file_to_processed p "processed" w = (Ok (), w') →
  db w' = db w ∧ stdout w' = stdout w ++ [Moved p] ∧
  is_Some (lookup_entry p (fs w)) ∧
  lookup_entry p (fs w') = None ∧
  archived p (fs w') = lookup_entry p (fs w) ∧
  (∀ q, q ≠ p → q ≠ "processed" →
        lookup_entry q (fs w') = lookup_entry q (fs w)) ∧
  (∀ q, q ≠ p → archived q (fs w') = archived q (fs w)) ∧
  (archive_ok (fs w) →
   (∀ c, lookup_entry p (fs w) = Some c → ∃ csv, c = RegularFile csv) →
   archive_ok (fs w')).
Proof.
  intros Hne. unfold move_file_to_processed, bind.
  destruct (mkdir "processed" w) as [[[]|e1] w1] eqn:Hmk; [|done].
  destruct (rename p "processed" w1) as [[[]|e2] w2] eqn:Hrn; [|done].
  unfold print. intros [= <-].
  destruct (mkdir_ok _ _ Hmk) as (Hdb1 & Hout1 & _ & Hl1 & Ha1 & Hok1).
  destruct (rename_ok _ _ _ Hne Hrn)
    as (Hdb2 & Hout2 & Hs2 & Hg2 & Hp2 & Hl2 & Ha2 & Hok2).
  simpl. rewrite Hl1 in Hs2, Hp2 by done.
  repeat split; try congruence.
  - intros q Hq Hq'. by rewrite Hl2, Hl1.
  - intros q Hq. by rewrite Ha2, Ha1.
  - intros Hok Hc. apply Hok2; [by apply Hok1|].
    intros c. rewrite Hl1 by done. apply Hc.
Qed.

(** X9.  A move that succeeds takes the file out of the data directory
    and puts it, under its own name and with its content, into the
    processed area, where it replaces whatever had that name.  Every
    other name of the data directory and of the processed area denotes
    what it did, the database is untouched, and one line is printed. *)
Theorem move_file_to_processed_moves (p : string) (w w' : world) :
  p ≠ "processed" →
  move_file_to_processed p "processed" w = (Ok (), w') →
  is_Some (lookup_entry p (fs w)) ∧
  lookup_entry p (fs w') = None ∧
  archived p (fs w') = lookup_entry p (fs w) ∧
  (∀ q, q ≠ p → q ≠ "processed" →
        lookup_entry q (fs w') = lookup_entry q (fs w)) ∧
  (∀ q, q ≠ p → archived q (fs w') = archived q (fs w)) ∧
  db w' = db w ∧ stdout w' = stdout w ++ [Moved p].
Proof.
  intros Hne Hmv.
  destruct (move_file_to_processed_effect p w w' Hne Hmv)
    as (Hdb & Hout & Hsrc & Hgone & Harch & Hl & Ha & _).
  by repeat split.
Qed.

(** X10.  A move that raises loses nothing: the file is still in the
    data directory with its content, every entry of the directory is
    still there, the database is untouched and nothing is printed.  (The
    processed area may have been created.) *)
Theorem failed_move_keeps_the_file (p : string) (w w' : world) (exc : exn) :
  is_Some (lookup_entry p (fs w)) →
  move_file_to_processed p "processed" w = (Raise exc, w') →
  lookup_entry p (fs w') = lookup_entry p (fs w) ∧
  (∀ e, e ∈ fs w → e ∈ fs w') ∧
  db w' = db w ∧ stdout w' = stdout w.
Proof.
  intros [c Hsrc]. unfold move_file_to_processed, bind.
  destruct (mkdir_inv "processed" w)
    as (r1 & w1 & Hmk & Hdb1 & Hout1 & Hfs1 & Hraise1).
  rewrite Hmk. destruct r1 as [[]|e1].
  2:{ intros [= <- <-]. by rewrite (Hraise1 e1 eq_refl). }
  assert (lookup_entry p (fs w1) = lookup_entry p (fs w)) as Hsame.
  { revert Hmk. unfold mkdir. destruct (os_error _ _); [done|].
    destruct (lookup_entry "processed" (fs w)) as [[| |]|];
      intros [= <-]; try done.
    simpl. by rewrite lookup_entry_app, Hsrc. }
  destruct (rename_inv p "processed" w1)
    as (r2 & w2 & Hrn & _ & _ & _ & Hraise2).
  rewrite Hrn. destruct r2 as [[]|e2]; [done|].
  intros [= <- <-]. rewrite (Hraise2 e2 eq_refl). by repeat split.
Qed.

(** X11.  A regular file named [processed] in the data directory blocks
    the archival: in a normal run, a file whose load commits has its rows
    in the table, but stays where it is, the step printing the
    [FileExistsError] of [mkdir] and ending normally. *)
Theorem file_named_processed_blocks_archival (conn : PgConnection)
    (p : string) (shop cash : Z) (w : world) (rows : list sales_row)
    (csv0 : list (list string)) :
  lookup_entry "processed" (fs w) = Some (RegularFile csv0) →
  os_error (Mkdir "processed") (fs w) = None →
  (read_csv_file p shop cash w).1 = Ok rows →
  pending (db w) = [] →
  (with_conn conn (insert_rows conn rows) w).1 = Ok () →
  ∃ w',
    process_file (Some conn) false (p, shop, cash) w = (Ok (), w') ∧
    fs w' = fs w ∧
    db w' = Database (committed (db w) ++ rows) [] ∧
    stdout w' = stdout w ++ [Processing p shop cash;
                             RowsToLoad (length rows);
                             LoadError p (FileExistsError "processed")].
Proof.
  intros Hdir Hos Hread Hpending Hload.
  rewrite (process_file_parsed _ _ _ _ _ rows Hread).
  rewrite !transaction_printed.
  destruct (transaction_outcome conn rows w)
    as (r & wa & Heq & Hfs & Hout & Hp & Hc).
  rewrite Heq in Hload |- *. simpl in Hload. subst r. cbn [fst snd].
  rewrite Hpending in Hc. simpl in Hc.
  unfold move_file_to_processed, bind, mkdir. simpl.
  rewrite Hfs, Hos, Hdir. eexists. split; [done|]. simpl.
  repeat split; try done.
  - destruct (db wa) as [c pd]. simpl in *. by subst.
  - by rewrite Hout, <- !app_assoc.
Qed.

End Archive.

Section Runs.

Context {env : Environment}.

(** X12.  When no regular file of the directory has a matching name, the
    run prints its notes and that there is nothing to process, and ends
    normally with the directory and the database as they were; this does
    not depend on the connection or on the dry-run flag. *)
Theorem run_without_accepted_files (conn : option PgConnection)
    (dry_run : bool) (w : world) :
  (∀ e, e ∈ fs w → is_file e = true →
        FILENAME_PATTERN_match (name e) = None) →
  process_files conn dry_run w =
    (Ok (), World (fs w) (db w)
                  (stdout w ++ omap skip_note (fs w) ++ [NoFiles])).
Proof.
  intros Hnone. rewrite process_files_unfold.
  assert (omap accepted (fs w) = []) as ->.
  { induction (fs w) as [|e l IH]; [done|]. cbn [omap list_omap].
    rewrite IH by (intros e' He'; apply Hnone; by right).
    unfold accepted. destruct (is_file e) eqn:Hf; [|done].
    rewrite (Hnone e); [done|by left|done]. }
  unfold printed, listed. simpl. by rewrite <- app_assoc.
Qed.

Lemma process_file_no_connection_frame (f : string * Z * Z) (w : world) :
  fs (process_file None false f w).2 = fs w ∧
  db (process_file None false f w).2 = db w.
Proof.
  destruct f as [[p shop] cash].
  destruct ((read_csv_file p shop cash w).1) as [rows|exc] eqn:Hread.
  - by rewrite (process_file_no_connection _ _ _ _ rows Hread).
  - by rewrite (process_file_unparsed _ _ _ _ _ _ exc Hread).
Qed.

(** X13.  Without a connection, a run that is not dry loads and moves
    nothing: the directory and the database are as they were.  If there
    is a file to process and the first one parses, the run ends with the
    [AssertionError] right after printing its number of rows. *)
Theorem run_without_connection (w : world) :
  (fs (process_files None false w).2 = fs w ∧
   db (process_files None false w).2 = db w) ∧
  (∀ p shop cash files w0 rows,
     find_csv_files w = (Ok ((p, shop, cash) :: files), w0) →
     (read_csv_file p shop cash w).1 = Ok rows →
     process_files None false w =
       (Raise AssertionError,
        printed (RowsToLoad (length rows))
          (printed (Processing p shop cash)
             (printed (Found (S (length files))) w0)))).
Proof.
  split.
  - rewrite process_files_unfold.
    destruct (omap accepted (fs w)) as [|f files]; [done|].
    cbn [for_each]. unfold bind.
    pose proof (process_file_no_connection_frame f
                  (printed (Found (length (f :: files))) (listed w)))
      as [Hfs Hdb].
    destruct (process_file None false f _) as [[[]|exc] w1] eqn:Hstep;
      [|done].
    destruct f as [[p shop] cash].
    destruct ((read_csv_file p shop cash
                 (printed (Found (length ((p, shop, cash) :: files)))
                          (listed w))).1) as [rows|exc] eqn:Hread.
    + by rewrite (process_file_no_connection _ _ _ _ rows Hread) in Hstep.
    + by rewrite (process_file_unparsed _ _ _ _ _ _ exc Hread) in Hstep.
  - intros p shop cash files w0 rows Hfind Hread.
    rewrite find_csv_files_spec in Hfind. injection Hfind as Hfiles <-.
    rewrite process_files_unfold, Hfiles.
    apply for_each_cons_raise.
    by apply process_file_no_connection.
Qed.

Lemma process_file_commits (conn : PgConnection) (p : string)
    (shop cash : Z) (w : world) (rows : list sales_row) :
  (read_csv_file p shop cash w).1 = Ok rows →
  pending (db w) = [] →
  (with_conn conn (insert_rows conn rows) w).1 = Ok () →
  (process_file (Some conn) false (p, shop, cash) w).1 = Ok () ∧
  db (process_file (Some conn) false (p, shop, cash) w).2 =
    Database (committed (db w) ++ rows) [].
Proof.
  intros Hread Hpending Hload.
  rewrite (process_file_parsed _ _ _ _ _ rows Hread).
  rewrite !transaction_printed.
  destruct (transaction_outcome conn rows w)
    as (r & wa & Heq & _ & _ & Hp & Hc).
  rewrite Heq in Hload |- *. simpl in Hload. subst r. cbn [fst snd].
  rewrite Hpending in Hc. simpl in Hc.
  destruct (move_file_to_processed_inv p
              (printed (RowsToLoad (length rows))
                 (printed (Processing p shop cash) wa)))
    as (r & wb & -> & Hdb & _).
  assert (db wb = Database (committed (db w) ++ rows) []) as Hwb.
  { rewrite Hdb. simpl. destruct (db wa) as [c pd]. simpl in *. by subst. }
  by destruct r as [[]|exc].
Qed.

(** X14.  Nothing guards against loading a file twice.  When the load
    of a file commits but the file is still in the data directory
    afterwards (its move raised), processing it again parses the same
    rows and, the server accepting them, the table then holds the batch
    twice. *)
Theorem reprocessing_duplicates_rows (conn : PgConnection) (p : string)
    (shop cash : Z) (w : world) (rows : list sales_row) :
  (read_csv_file p shop cash w).1 = Ok rows →
  pending (db w) = [] →
  (with_conn conn (insert_rows conn rows) w).1 = Ok () →
  let w1 := (process_file (Some conn) false (p, shop, cash) w).2 in
  lookup_entry p (fs w1) = lookup_entry p (fs w) →
  (with_conn conn (insert_rows conn rows) w1).1 = Ok () →
  (read_csv_file p shop cash w1).1 = Ok rows ∧
  db (process_file (Some conn) false (p, shop, cash) w1).2 =
    Database (committed (db w) ++ rows ++ rows) [].
Proof.
  intros Hread Hpending Hload w1 Hstill Hload1.
  destruct (process_file_commits conn p shop cash w rows Hread Hpending Hload)
    as [_ Hdb1]. fold w1 in Hdb1.
  assert ((read_csv_file p shop cash w1).1 = Ok rows) as Hread1.
  { revert Hread. unfold read_csv_file, open_file. simpl. by rewrite Hstill. }
  split; [done|].
  destruct (process_file_commits conn p shop cash w1 rows Hread1)
    as [_ Hdb2]; [by rewrite Hdb1|done|].
  rewrite Hdb2, Hdb1. simpl. by rewrite <- app_assoc.
Qed.

(** X16.  A run leaves no transaction open and removes nothing from the
    table: started with no row pending, it ends, normally or not, with
    no row pending and with the rows the table held still at its head. *)
Theorem run_leaves_no_transaction_open (conn : option PgConnection)
    (dry_run : bool) (w : world) :
  pending (db w) = [] →
  pending (db (process_files conn dry_run w).2) = [] ∧
  ∃ added,
    committed (db (process_files conn dry_run w).2) =
      committed (db w) ++ added.
Proof.
  intros Hpending. rewrite process_files_unfold.
  destruct (omap accepted (fs w)) as [|f files] eqn:Hfiles.
  { split; [done|]. exists []. by rewrite app_nil_r. }
  destruct (for_each_process_file_committed conn dry_run (f :: files)
              (printed (Found (length (f :: files))) (listed w)))
    as (Hp & added & Hc & _); [done| |by eauto].
  apply Forall_forall. intros [[p shop] cash] Hin.
  apply list_elem_of_In in Hin. rewrite <- Hfiles in Hin.
  apply list_elem_of_omap in Hin as (e & _ & Hacc).
  by apply accepted_Some in Hacc as (_ & -> & Hg).
Qed.

End Runs.

Section WholeRun.

Context {env : Environment}.

Lemma lookup_entry_elem (p : string) (l : list entry) (c : node) :
  lookup_entry p l = Some c → ∃ e, e ∈ l ∧ name e = p ∧ content e = c.
Proof.
  induction l as [|e l IH]; simpl; [done|]. case_bool_decide as Hn.
  - intros [= <-]. exists e. split; [by left|done].
  - intros (e' & He' & Hne' & Hc')%IH. exists e'. split; [by right|done].
Qed.

Lemma lookup_entry_NoDup (l : list entry) (e : entry) :
  NoDup (map name l) → e ∈ l → lookup_entry (name e) l = Some (content e).
Proof.
  induction l as [|e0 l IH]; simpl; intros Hnd He.
  - by apply elem_of_nil in He.
  - apply list.NoDup_cons in Hnd as [Hn0 Hnd].
    apply elem_of_cons in He as [->|He].
    + by rewrite bool_decide_eq_true_2.
    + rewrite bool_decide_eq_false_2; [by apply IH|].
      intros Heq. apply Hn0. rewrite Heq. apply list_elem_of_In, in_map.
      by apply list_elem_of_In.
Qed.

Lemma archive_ok_ready (p : string) (l : list entry) :
  archive_ok l → processed_area_ready p l.
Proof.
  unfold archive_ok, processed_area_ready.
  destruct (lookup_entry "processed" l) as [[|ch|]|]; try done.
  intros Hch. destruct (lookup_entry p ch) as [[| |]|] eqn:Hp; try done.
  apply lookup_entry_elem in Hp as (e & He & _ & Hc).
  rewrite Forall_forall in Hch. apply list_elem_of_In, Hch in He.
  unfold is_file in He. by rewrite Hc in He.
Qed.

Lemma transaction_succeeds (conn : PgConnection) (rows : list sales_row)
    (w : world) :
  nothing_fails →
  with_conn conn (insert_rows conn rows) w =
    (Ok (), set_db (Database (committed (db w) ++ pending (db w) ++ rows) [])
                   w).
Proof.
  intros (Hins & Hcom & _). unfold with_conn, insert_rows.
  rewrite execute_batch_unchunked, execute_accepted by (intros; apply Hins).
  unfold commit. by rewrite Hcom.
Qed.

(** The step of a file when nothing fails: loaded, then archived. *)
Lemma process_file_archives (conn : PgConnection) (p : string)
    (shop cash : Z) (csv : list (list string)) (rows : list sales_row)
    (w : world) :
  nothing_fails →
  p ≠ "processed" →
  lookup_entry p (fs w) = Some (RegularFile csv) →
  parse_csv csv shop cash p = Ok rows →
  pending (db w) = [] →
  archive_ok (fs w) →
  ∃ w',
    process_file (Some conn) false (p, shop, cash) w = (Ok (), w') ∧
    db w' = Database (committed (db w) ++ rows) [] ∧
    archive_ok (fs w') ∧
    lookup_entry p (fs w') = None ∧
    archived p (fs w') = Some (RegularFile csv) ∧
    (∀ q, q ≠ p → q ≠ "processed" →
          lookup_entry q (fs w') = lookup_entry q (fs w)) ∧
    (∀ q, q ≠ p → archived q (fs w') = archived q (fs w)).
Proof.
  intros Hnf Hne Hfile Hparse Hpending Hok.
  assert ((read_csv_file p shop cash w).1 = Ok rows) as Hread.
  { by rewrite (read_csv_file_open _ _ _ csv). }
  rewrite (process_file_parsed _ _ _ _ _ rows Hread).
  rewrite transaction_succeeds by done.
  set (wa := set_db _ _).
  destruct (move_file_to_processed_succeeds p (RegularFile csv) wa)
    as (wb & Hmv); try done.
  { by apply Hnf. }
  { by apply archive_ok_ready. }
  rewrite Hmv. exists wb. split; [done|].
  destruct (move_file_to_processed_effect p wa wb Hne Hmv)
    as (Hdb & _ & _ & Hgone & Harch & Hl & Ha & Hok').
  split; [rewrite Hdb; simpl; by rewrite Hpending|].
  split; [apply Hok'; [done|]; intros c; simpl; rewrite Hfile;
          intros [= <-]; by eexists|].
  split; [done|]. split; [by rewrite Harch|]. by split.
Qed.

Lemma accepted_name (e : entry) (p : string) (shop cash : Z) :
  accepted e = Some (p, shop, cash) →
  p = name e ∧ p ≠ "processed" ∧ ∃ csv, content e = RegularFile csv.
Proof.
  intros Hacc.
  assert (is_Some (FILENAME_PATTERN_match p) ∧ p = name e ∧
          is_file e = true) as (Hm & -> & Hf).
  { apply accepted_Some in Hacc as (Hf & -> & g1 & g2 & Hm & _).
    apply FILENAME_PATTERN_match_iff in Hm. by rewrite Hm. }
  split; [done|]. split; [by apply FILENAME_PATTERN_match_not_processed|].
  unfold is_file in Hf. destruct (content e); by eauto.
Qed.

Lemma for_each_archives (conn : PgConnection) (R : list entry) (w : world) :
  nothing_fails →
  NoDup (map name R) →
  pending (db w) = [] →
  archive_ok (fs w) →
  (∀ e, e ∈ R → is_Some (accepted e) →
        lookup_entry (name e) (fs w) = Some (content e)) →
  Forall parses R →
  ∃ w',
    for_each (process_file (Some conn) false) (omap accepted R) w
      = (Ok (), w') ∧
    db w' = Database (committed (db w) ++ concat (map batch_of R)) [] ∧
    archive_ok (fs w') ∧
    (∀ e, e ∈ R → is_Some (accepted e) →
          lookup_entry (name e) (fs w') = None ∧
          archived (name e) (fs w') = Some (content e)) ∧
    (∀ q, (∀ e, e ∈ R → is_Some (accepted e) → name e ≠ q) →
          q ≠ "processed" →
          lookup_entry q (fs w') = lookup_entry q (fs w)) ∧
    (∀ q, (∀ e, e ∈ R → is_Some (accepted e) → name e ≠ q) →
          archived q (fs w') = archived q (fs w)).
Proof.
  intros Hnf. revert w.
  induction R as [|e R IH]; intros w Hnd Hpending Hok Hthere Hparse.
  { exists w. simpl. rewrite app_nil_r. unfold ret.
    split; [done|]. split.
    { destruct (db w) as [c pd]. simpl in *. by subst. }
    split; [done|]. split; [|done].
    intros e He. by apply elem_of_nil in He. }
  apply list.NoDup_cons in Hnd as [Hfresh Hnd].
  apply list.Forall_cons in Hparse as [He Hparse].
  assert (∀ e', e' ∈ R → name e' ≠ name e) as Hdiff.
  { intros e' He' Heq. apply Hfresh. rewrite <- Heq.
    apply list_elem_of_In, in_map. by apply list_elem_of_In. }
  cbn [omap list_omap map concat].
  destruct (accepted e) as [[[p shop] cash]|] eqn:Hacc.
  - destruct (accepted_name e p shop cash Hacc) as (-> & Hne & csv & Hcsv).
    destruct (He (name e) shop cash csv Hacc Hcsv) as [rows Hrows].
    assert (batch_of e = rows) as Hbatch.
    { unfold batch_of. by rewrite Hacc, Hcsv, Hrows. }
    destruct (process_file_archives conn (name e) shop cash csv rows w)
      as (w1 & Hstep & Hdb1 & Hok1 & Hgone1 & Harch1 & Hl1 & Ha1);
      try done.
    { rewrite Hthere; [by rewrite Hcsv|by left|by rewrite Hacc]. }
    destruct (IH w1) as (w' & Hloop & Hdb & Hok' & Hall & Hl & Ha);
      try done.
    { by rewrite Hdb1. }
    { intros e' He' Hacc'. rewrite Hl1.
      - apply Hthere; [by right|done].
      - by apply Hdiff.
      - destruct Hacc' as [[[p' s'] c'] Hacc'].
        by destruct (accepted_name e' p' s' c' Hacc') as (<- & ? & _). }
    exists w'. split.
    { cbn [for_each]. unfold bind. by rewrite Hstep. }
    split; [rewrite Hdb, Hdb1, Hbatch; simpl; by rewrite <- app_assoc|].
    split; [done|]. split; [|split].
    + intros e' [->|He']%elem_of_cons Hacc'.
      * split.
        { rewrite Hl; [done| |done]. intros e'' He'' _. by apply Hdiff. }
        { rewrite Ha; [by rewrite Harch1, Hcsv|].
          intros e'' He'' _. by apply Hdiff. }
      * by apply Hall.
    + intros q Hq Hq'. rewrite Hl, Hl1; try done.
      * intros ->. apply (Hq e); [by left|by rewrite Hacc|done].
      * intros e' He' Hacc'. apply Hq; [by right|done].
    + intros q Hq. rewrite Ha, Ha1; try done.
      * intros ->. apply (Hq e); [by left|by rewrite Hacc|done].
      * intros e' He' Hacc'. apply Hq; [by right|done].
  - assert (batch_of e = []) as -> by (unfold batch_of; by rewrite Hacc).
    destruct (IH w) as (w' & Hloop & Hdb & Hok' & Hall & Hl & Ha);
      try done.
    { intros e' He' Hacc'. apply Hthere; [by right|done]. }
    exists w'. split; [done|]. split; [done|]. split; [done|].
    split; [|split].
    + intros e' [->|He']%elem_of_cons Hacc'.
      * rewrite Hacc in Hacc'. by destruct Hacc'.
      * by apply Hall.
    + intros q Hq Hq'. apply Hl; [|done].
      intros e' He' Hacc'. apply Hq; [by right|done].
    + intros q Hq. apply Ha.
      intros e' He' Hacc'. apply Hq; [by right|done].
Qed.

(** X15.  A run in which nothing goes wrong loads and archives every
    accepted file.  When the names of the directory are distinct, every
    accepted file parses, the processed area is absent or a directory of
    regular files, the server and the operating system refuse nothing and
    no row is pending, a normal run ends normally; the table then holds
    the rows it held followed by the batches of the accepted files in the
    order of the listing; every accepted file is out of the data
    directory and in the processed area with its content; every other
    entry of the data directory, the processed area apart, is as it was. *)
Theorem run_loads_and_archives_everything (conn : PgConnection) (w : world) :
  nothing_fails →
  NoDup (map name (fs w)) →
  pending (db w) = [] →
  archive_ok (fs w) →
  Forall parses (fs w) →
  ∃ w',
    process_files (Some conn) false w = (Ok (), w') ∧
    db w' = Database (committed (db w) ++ concat (map batch_of (fs w))) [] ∧
    (∀ e, e ∈ fs w → is_Some (accepted e) →
          lookup_entry (name e) (fs w') = None ∧
          archived (name e) (fs w') = Some (content e)) ∧
    (∀ e, e ∈ fs w → accepted e = None → name e ≠ "processed" →
          lookup_entry (name e) (fs w') = Some (content e)).
Proof.
  intros Hnf Hnd Hpending Hok Hparse.
  assert (∀ v, fs v = fs w → db v = db w →
            ∃ w', for_each (process_file (Some conn) false)
                           (omap accepted (fs w)) v = (Ok (), w') ∧
              db w' = Database (committed (db w)
                                  ++ concat (map batch_of (fs w))) [] ∧
              (∀ e, e ∈ fs w → is_Some (accepted e) →
                    lookup_entry (name e) (fs w') = None ∧
                    archived (name e) (fs w') = Some (content e)) ∧
              (∀ e, e ∈ fs w → accepted e = None → name e ≠ "processed" →
                    lookup_entry (name e) (fs w') = Some (content e)))
    as Hloop.
  { intros v Hfs Hdb.
    destruct (for_each_archives conn (fs w) v)
      as (w' & Hrun & Hdb' & _ & Hall & Hl & _); try done.
    { by rewrite Hdb. }
    { by rewrite Hfs. }
    { intros e He _. rewrite Hfs. by apply lookup_entry_NoDup. }
    exists w'. split; [done|]. split; [by rewrite Hdb', Hdb|].
    split; [done|]. intros e He Hacc Hne.
    rewrite Hl, Hfs; [by apply lookup_entry_NoDup| |done].
    intros e' He' Hacc' Heq.
    assert (e' = e) as ->; [|by rewrite Hacc in Hacc'; destruct Hacc'].
    pose proof (lookup_entry_NoDup _ _ Hnd He) as H1.
    pose proof (lookup_entry_NoDup _ _ Hnd He') as H2.
    rewrite Heq in H2. destruct e, e'. simpl in *. congruence. }
  rewrite process_files_unfold.
  destruct (omap accepted (fs w)) as [|f files] eqn:Hfiles.
  - destruct (Hloop (printed NoFiles (listed w)) eq_refl eq_refl)
      as (w' & Hrun & Hrest).
    injection Hrun as <-. by eexists.
  - by apply (Hloop (printed (Found (length (f :: files))) (listed w))).
Qed.

End WholeRun.

Section Main.

Context {env : Environment}.

(** X17.  In a normal run [main] closes the connection whatever
    [process_files] does: its outcome, an exception included, is the
    outcome of [main]; the directory and the committed rows are as
    [process_files] left them; no row is pending; and the last line
    printed says that the connection is closed. *)
Theorem main_closes_the_connection (data_dir : string) (w : world)
    (conn : PgConnection) :
  data_dir_exists = true →
  get_db_connection = Ok conn →
  let run := process_files (Some conn) false (printed ConnectionOpened w) in
  (main data_dir false w).1 = run.1 ∧
  fs (main data_dir false w).2 = fs run.2 ∧
  committed (db (main data_dir false w).2) = committed (db run.2) ∧
  pending (db (main data_dir false w).2) = [] ∧
  stdout (main data_dir false w).2 = stdout run.2 ++ [ConnectionClosed].
Proof.
  intros Hdir Hconn run.
  assert (main data_dir false w =
            (run.1, printed ConnectionClosed (rollback run.2))) as ->.
  { unfold main. rewrite Hdir. cbn [negb]. cbv iota.
    unfold bind, lift, try_finally, close, print. rewrite Hconn.
    fold run. by destruct run as [r w1]. }
  done.
Qed.

End Main.

Section Configuration.

Context {env : Environment}.
Variable connect : string → Z → string → string → string → result PgConnection.

(** X18.  [get_db_connection] returns a connection only for a complete
    configuration: the database name, the user and the password are set
    and not empty, the port is an integer, and the connection is the one
    [connect] gives for them, with [localhost] and [5432] standing in for
    a host and a port that are not set. *)
Theorem get_db_connection_Ok (environ : gmap string string)
    (conn : PgConnection) :
  Config.get_db_connection connect environ = Ok conn →
  ∃ port dbname user password,
    environ !! "DB_NAME" = Some dbname ∧ dbname ≠ "" ∧
    environ !! "DB_USER" = Some user ∧ user ≠ "" ∧
    environ !! "DB_PASSWORD" = Some password ∧ password ≠ "" ∧
    int_of_str (default "5432" (environ !! "DB_PORT")) = Some port ∧
    connect (default "localhost" (environ !! "DB_HOST")) port
            dbname user password = Ok conn.
Proof.
  unfold Config.get_db_connection.
  destruct (int_of_str _) as [port|] eqn:Hport; [|done]. simpl.
  destruct (environ !! "DB_NAME") as [[|c1 s1]|]; simpl; try done.
  destruct (environ !! "DB_USER") as [[|c2 s2]|]; simpl; try done.
  destruct (environ !! "DB_PASSWORD") as [[|c3 s3]|]; simpl; try done.
  intros Hconn. eexists _, _, _, _. by repeat split.
Qed.

(** X19.  An incomplete configuration never reaches the server.  When
    the database name, the user or the password is not set or is empty,
    [get_db_connection] raises [RuntimeError], whatever [connect] would
    do; but the port is converted first, so that a port that is not an
    integer raises the error of [int], complete configuration or not. *)
Theorem get_db_connection_incomplete (environ : gmap string string) :
  (∀ port,
     int_of_str (default "5432" (environ !! "DB_PORT")) = Some port →
     Config.truthy (environ !! "DB_NAME") = false ∨
     Config.truthy (environ !! "DB_USER") = false ∨
     Config.truthy (environ !! "DB_PASSWORD") = false →
     ∃ msg, Config.get_db_connection connect environ
              = Raise (RuntimeError msg)) ∧
  (int_of_str (default "5432" (environ !! "DB_PORT")) = None →
   Config.get_db_connection connect environ =
     Raise (ValueError_int (default "5432" (environ !! "DB_PORT")))).
Proof.
  unfold Config.get_db_connection. split.
  - intros port -> Hmissing. simpl.
    destruct Hmissing as [-> | [-> | ->]]; simpl;
      rewrite ?andb_false_r; simpl; eauto.
  - by intros ->.
Qed.

End Configuration.

Section Names.

Context {env : Environment}.

Lemma all_digits_app (s1 s2 : string) :
  all_digits s1 = true → all_digits (s1 +:+ s2) = all_digits s2.
Proof.
  intros H. unfold all_digits in *.
  rewrite chars_all_digits_app by done. by rewrite forallb_app, H.
Qed.

Lemma int_digits_from_app (a : Z) (cs1 cs2 : list string) :
  int_digits_from a (cs1 ++ cs2) = int_digits_from (int_digits_from a cs1) cs2.
Proof.
  revert a. induction cs1 as [|c cs1 IH]; intros a; [done|]. simpl. apply IH.
Qed.

Lemma digit_char_spec (d : N) :
  (d < 10)%N → decimal_value (String (digit_char d) "") = Some d.
Proof.
  intros Hd. unfold decimal_value, is_digit, digit_char.
  rewrite N_ascii_embedding by lia.
  destruct (N.leb_spec 48 (48 + d)); [|lia].
  destruct (N.leb_spec (48 + d) 57); [|lia].
  simpl. f_equal. lia.
Qed.

(** The digits [str_digits] writes: not empty, all digits, and read back
    as the number. *)
Lemma str_digits_spec (fuel : nat) (n : N) (acc : string) :
  fuel ≠ 0%nat →
  (n < 2 ^ N.of_nat fuel)%N →
  ∃ D m,
    str_digits fuel n acc = D +:+ acc ∧ D ≠ "" ∧ all_digits D = true ∧
    ∀ a, int_digits_from a (chars D) = (a * m + Z.of_N n)%Z.
Proof.
  revert n acc. induction fuel as [|fuel IH]; intros n acc Hfuel Hn; [done|].
  simpl str_digits.
  pose proof (N.mod_lt n 10%N) as Hmod.
  pose proof (N.Div0.div_mod n 10%N) as Hdiv.
  pose proof (digit_char_spec (n mod 10)) as Hd.
  assert (all_digits (String (digit_char (n mod 10)) "") = true) as Hone.
  { unfold all_digits, is_decimal. cbn [chars forallb].
    rewrite Hd by lia. by rewrite bool_decide_true. }
  assert (∀ a, int_digits_from a (chars (String (digit_char (n mod 10)) ""))
               = (10 * a + Z.of_N (n mod 10))%Z) as Hval1.
  { intros a. cbn [chars int_digits_from]. by rewrite Hd by lia. }
  destruct (N.eqb_spec (n / 10) 0%N) as [Hz|Hnz].
  - exists (String (digit_char (n mod 10)) ""), 10%Z.
    rewrite append_cons, append_nil.
    repeat split; try done. intros a. rewrite Hval1. lia.
  - assert (n / 10 < 2 ^ N.of_nat fuel)%N as Hlt.
    { apply N.Div0.div_lt_upper_bound.
      rewrite Nat2N.inj_succ, N.pow_succ_r' in Hn. lia. }
    assert (fuel ≠ 0%nat) as Hfuel'.
    { intros ->. simpl in Hlt. lia. }
    destruct (IH (n / 10)%N (String (digit_char (n mod 10)) acc) Hfuel' Hlt)
      as (D & m & -> & HD & Hall & Hval).
    exists (D +:+ String (digit_char (n mod 10)) ""), (m * 10)%Z.
    rewrite append_assoc, append_cons, append_nil.
    split; [done|]. split.
    { destruct D; [done|]. by rewrite append_cons. }
    split.
    { by rewrite all_digits_app. }
    intros a.
    rewrite chars_all_digits_app, int_digits_from_app, Hval, Hval1 by done.
    lia.
Qed.

Lemma str_N_spec (n : N) :
  str_N n ≠ "" ∧ all_digits (str_N n) = true ∧
  int_digits (str_N n) = Z.of_N n.
Proof.
  unfold str_N, int_digits.
  destruct (str_digits_spec (S (N.to_nat (N.log2 n))) n "")
    as (D & m & -> & HD & Hall & Hval); [done| |].
  - rewrite Nat2N.inj_succ, N2Nat.id.
    destruct (N.eq_dec n 0%N) as [->|Hn]; [done|].
    apply N.log2_spec. lia.
  - rewrite append_empty.
    split; [done|]. split; [done|]. rewrite Hval. lia.
Qed.

(** X20.  The names the generator gives its files are the names the
    loader accepts, and the numbers come back: for a shop number and a
    till number that are not negative, [FILENAME_PATTERN] matches
    [f"{shop_num}_{cash_num}.csv"], the integers of its two groups are
    the two numbers, so that [find_csv_files] returns the file with them;
    and the header the generator writes has every column the loader
    requires, whatever rows follow. *)
Theorem generated_name_round_trip (shop cash : Z)
    (rows : list (list string)) :
  (0 ≤ shop)%Z → (0 ≤ cash)%Z →
  FILENAME_PATTERN_match (csv_file_name shop cash)
    = Some (str shop, str cash) ∧
  int_digits (str shop) = shop ∧ int_digits (str cash) = cash ∧
  accepted (Entry (csv_file_name shop cash) (RegularFile (csv_header :: rows)))
    = Some (csv_file_name shop cash, shop, cash) ∧
  issubset required_fields (default [] (fieldnames (csv_header :: rows)))
    = true.
Proof.
  intros Hshop Hcash.
  assert (∀ z, (0 ≤ z)%Z →
            str z ≠ "" ∧ all_digits (str z) = true ∧
            int_digits (str z) = z) as Hstr.
  { intros z Hz. unfold str.
    destruct (Z.ltb_spec z 0) as [?|_]; [lia|].
    destruct (str_N_spec (Z.to_N z)) as (? & ? & Hv).
    repeat split; try done. rewrite Hv. lia. }
  destruct (Hstr shop Hshop) as (Hs1 & Hs2 & Hs3).
  destruct (Hstr cash Hcash) as (Hc1 & Hc2 & Hc3).
  assert (FILENAME_PATTERN_match (csv_file_name shop cash)
            = Some (str shop, str cash)) as Hmatch.
  { apply FILENAME_PATTERN_match_iff. unfold match_groups.
    repeat split; try done. by left. }
  split; [done|]. split; [done|]. split; [done|]. split; [|done].
  unfold accepted, is_file, name, content. rewrite Hmatch.
  unfold fmap, option_fmap, option_map. by rewrite Hs3, Hc3.
Qed.

(** X21.  A negative shop or till number gives a name the loader does
    not accept: [str] writes a minus sign, which is no digit. *)
Theorem negative_numbers_are_not_accepted (shop cash : Z) :
  (shop < 0)%Z ∨ (cash < 0)%Z →
  FILENAME_PATTERN_match (csv_file_name shop cash) = None.
Proof.
  intros Hneg. unfold csv_file_name, FILENAME_PATTERN_match.
  assert (∀ cs, span_digits ("-" :: cs) = ([], "-" :: cs)) as Hminus by done.
  destruct (Z.ltb_spec shop 0) as [Hs|Hs].
  - unfold str at 1. destruct (Z.ltb_spec shop 0); [|lia].
    rewrite append_cons, chars_single by (vm_compute; done).
    by rewrite Hminus.
  - destruct Hneg as [?|Hc]; [lia|].
    assert (str shop ≠ "" ∧ all_digits (str shop) = true) as [Hne Hall].
    { unfold str. destruct (Z.ltb_spec shop 0); [lia|].
      by destruct (str_N_spec (Z.to_N shop)) as (? & ? & _). }
    rewrite chars_all_digits_app by done.
    change ("_" +:+ str cash +:+ ".csv")
      with (String "_"%char (str cash +:+ ".csv")).
    rewrite chars_single by (vm_compute; done).
    rewrite span_digits_app; [|done|done].
    destruct (chars (str shop)) as [|c0 d0] eqn:Hchars;
      [by apply chars_nil in Hchars|].
    rewrite bool_decide_true by done.
    unfold str. destruct (Z.ltb_spec cash 0); [|lia].
    rewrite append_cons, chars_single by (vm_compute; done).
    by rewrite Hminus.
Qed.

End Names.

(** * The further properties on concrete inputs *)

Lemma find_csv_files_skips_non_files_witness :
  let e := Entry "1_2.csv" (Directory []) in
  is_file e = false ∧
  (find_csv_files (env := reliable) (initial_world ([Entry "3_2.csv" (RegularFile [])] ++
                                  e :: [Entry "x" (RegularFile [])]))).1 =
    Ok [("3_2.csv", 3%Z, 2%Z)].
Proof.
  intros e. split; [reflexivity|].
  destruct (find_csv_files_skips_non_files (env := reliable)
              [Entry "3_2.csv" (RegularFile [])]
              [Entry "x" (RegularFile [])] e (Database [] []) [] eq_refl)
    as [Hfiles _].
  unfold initial_world. rewrite Hfiles. by vm_compute.
Defined.

Lemma accepted_numbers_are_not_negative_witness :
  (find_csv_files (env := reliable) (initial_world mixed_directory)).1 =
    Ok [("3_2.csv", 3%Z, 2%Z); ("9_1.csv", 9%Z, 1%Z); ("4_1.csv", 4%Z, 1%Z)] ∧
  (0 ≤ 3)%Z ∧ (0 ≤ 2)%Z.
Proof.
  split; [by vm_compute|].
  apply (accepted_numbers_are_not_negative (env := reliable)
           (initial_world mixed_directory)
           (find_csv_files (env := reliable) (initial_world mixed_directory)).2
           [("3_2.csv", 3%Z, 2%Z); ("9_1.csv", 9%Z, 1%Z);
            ("4_1.csv", 4%Z, 1%Z)] "3_2.csv" 3 2).
  - by vm_compute.
  - by left.
Defined.

Lemma DictReader_row_lookup_witness :
  DictReader_row ["a"; "b"; "c"] ["1"; "2"] !! "b" = Some (Some "2") ∧
  DictReader_row ["a"; "b"; "c"] ["1"; "2"] !! "c" = Some None ∧
  DictReader_row ["a"; "b"; "c"] ["1"; "2"] !! "d" = None.
Proof.
  destruct (DictReader_row_lookup ["a"; "b"; "c"] ["1"; "2"])
    as [Hin Hout].
  { apply (bool_decide_unpack _). by vm_compute. }
  split; [exact (Hin 1%nat "b" eq_refl)|].
  split; [exact (Hin 2%nat "c" eq_refl)|].
  apply Hout. apply (bool_decide_unpack _). by vm_compute.
Defined.

(** The columns of [3_2.csv] written in the opposite order give the same
    record. *)
Lemma column_order_is_irrelevant_witness :
  convert_row (env := reliable)
              (DictReader_row (reverse header) (reverse towel)) 3 2 "3_2.csv"
    = Ok towel_row.
Proof.
  destruct (column_order_is_irrelevant (env := reliable)
              (reverse header) (reverse towel) header towel 3 2 "3_2.csv")
    as [_ Hsame].
  - apply (bool_decide_unpack _). by vm_compute.
  - apply (bool_decide_unpack _). by vm_compute.
  - intros k c. split.
    + intros ([|[|[|[|[|[|i]]]]]] & Hk & Hc); simpl in *; simplify_eq;
        [by exists 5%nat|by exists 4%nat|by exists 3%nat|
         by exists 2%nat|by exists 1%nat|by exists 0%nat].
    + intros ([|[|[|[|[|[|j]]]]]] & Hk & Hc); simpl in *; simplify_eq;
        [by exists 5%nat|by exists 4%nat|by exists 3%nat|
         by exists 2%nat|by exists 1%nat|by exists 0%nat].
  - rewrite Hsame. by vm_compute.
Defined.

Lemma surplus_cells_are_ignored_witness :
  convert_row (env := reliable)
              (DictReader_row header (towel ++ ["extra"; "cells"]))
              3 2 "3_2.csv"
    = Ok towel_row.
Proof.
  destruct (surplus_cells_are_ignored (env := reliable) header towel
              ["extra"; "cells"] 3 2 "3_2.csv") as [_ Hsame].
  - vm_compute. lia.
  - rewrite Hsame. by vm_compute.
Defined.

Lemma truncated_row_fails_file_witness :
  let w := initial_world
             [Entry "3_2.csv"
                (RegularFile [header; ["ABC123"; "Towel"; "textile"; "2"]])] in
  ∃ e, read_csv_file (env := reliable) "3_2.csv" 3 2 w = (Raise e, w).
Proof.
  intros w.
  apply (truncated_row_fails_file (env := reliable) "3_2.csv" 3 2
           [header; ["ABC123"; "Towel"; "textile"; "2"]] w
           ["ABC123"; "Towel"; "textile"; "2"] "price").
  - reflexivity.
  - vm_compute. by left.
  - apply (bool_decide_unpack _). by vm_compute.
  - apply (bool_decide_unpack _). by vm_compute.
Defined.

(** The move of [3_2.csv] replaces the earlier copy in the processed
    area and leaves [1_1.csv] there alone. *)
Lemma move_file_to_processed_moves_witness :
  let w := initial_world archived_directory in
  let w' := (move_file_to_processed (env := reliable) "3_2.csv" "processed"
                                    w).2 in
  lookup_entry "3_2.csv" (fs w') = None ∧
  archived "3_2.csv" (fs w') = Some (RegularFile [header; towel]) ∧
  archived "1_1.csv" (fs w') = Some (RegularFile [header]).
Proof.
  intros w w'.
  destruct (move_file_to_processed_moves (env := reliable) "3_2.csv" w w')
    as (_ & Hgone & Harch & _ & Hrest & _); [done|by vm_compute|].
  split; [exact Hgone|]. split; [by rewrite Harch|].
  by rewrite Hrest.
Defined.

Lemma failed_move_keeps_the_file_witness :
  let w := initial_world [Entry "3_2.csv" (RegularFile [header; towel])] in
  let w' := (move_file_to_processed (env := read_only_directory) "3_2.csv"
                                    "processed" w).2 in
  lookup_entry "3_2.csv" (fs w') = Some (RegularFile [header; towel]) ∧
  lookup_entry "processed" (fs w') = Some (Directory []).
Proof.
  intros w w'.
  destruct (failed_move_keeps_the_file (env := read_only_directory)
              "3_2.csv" w w' (OSError "permission denied"))
    as (Hstill & _); [by eexists|by vm_compute|].
  split; [by rewrite Hstill|by vm_compute].
Defined.

Lemma file_named_processed_blocks_archival_witness :
  let w := initial_world blocked_directory in
  ∃ w',
    process_file (env := reliable) (Some Connection) false
                 ("3_2.csv", 3%Z, 2%Z) w = (Ok (), w') ∧
    fs w' = blocked_directory ∧
    db w' = Database [towel_row] [].
Proof.
  intros w.
  destruct (file_named_processed_blocks_archival (env := reliable) Connection
              "3_2.csv" 3 2 w [towel_row] [])
    as (w' & Hstep & Hfs & Hdb & _); try by vm_compute.
  exists w'. split; [exact Hstep|]. split; [exact Hfs|exact Hdb].
Defined.

Lemma run_without_accepted_files_witness :
  let w := initial_world [Entry "notes.txt" (RegularFile []);
                          Entry "1_2.csv" (Directory [])] in
  process_files (env := reliable) None false w =
    (Ok (), World (fs w) (db w) [Skipping "notes.txt"; NoFiles]).
Proof.
  intros w.
  refine (run_without_accepted_files (env := reliable) None false w _).
  intros e He Hf. vm_compute in He.
  apply elem_of_cons in He as [->|He]; [by vm_compute|].
  apply elem_of_cons in He as [->|He]; [done|].
  by apply elem_of_nil in He.
Defined.

(** The rename is refused: [3_2.csv] stays, and processing it again puts
    its row into the table a second time. *)
Lemma reprocessing_duplicates_rows_witness :
  let w := initial_world [Entry "3_2.csv" (RegularFile [header; towel])] in
  let w1 := (process_file (env := read_only_directory) (Some Connection)
                          false ("3_2.csv", 3%Z, 2%Z) w).2 in
  db (process_file (env := read_only_directory) (Some Connection) false
                   ("3_2.csv", 3%Z, 2%Z) w1).2 =
    Database [towel_row; towel_row] [].
Proof.
  intros w w1.
  refine (proj2 (reprocessing_duplicates_rows (env := read_only_directory)
                   Connection "3_2.csv" 3 2 w [towel_row] _ _ _ _ _));
    by vm_compute.
Defined.

Lemma run_loads_and_archives_everything_witness :
  let w := initial_world good_directory in
  ∃ w',
    process_files (env := reliable) (Some Connection) false w = (Ok (), w') ∧
    db w' = Database [towel_row; other_row] [] ∧
    lookup_entry "4_1.csv" (fs w') = None ∧
    archived "4_1.csv" (fs w') =
      Some (RegularFile [header; ["X"; " Y "; "c"; "1"; "5"; "0"]]) ∧
    lookup_entry "notes.txt" (fs w') = Some (RegularFile []).
Proof.
  intros w.
  destruct (run_loads_and_archives_everything (env := reliable) Connection w)
    as (w' & Hrun & Hdb & Hacc & Hrest).
  - by repeat split.
  - apply (bool_decide_unpack _). by vm_compute.
  - reflexivity.
  - by vm_compute.
  - unfold w, initial_world, good_directory. simpl fs.
    repeat constructor; intros p shop cash csv Hacc Hc;
      vm_compute in Hacc; simplify_eq; simpl in Hc; simplify_eq;
      eexists; by vm_compute.
  - exists w'. split; [exact Hrun|]. split; [by rewrite Hdb|].
    destruct (Hacc (Entry "4_1.csv"
                (RegularFile [header; ["X"; " Y "; "c"; "1"; "5"; "0"]])))
      as [Hgone Harch].
    { vm_compute. by do 2 right; left. }
    { eexists. by vm_compute. }
    split; [exact Hgone|]. split; [exact Harch|].
    apply (Hrest (Entry "notes.txt" (RegularFile []))).
    + vm_compute. by left.
    + by vm_compute.
    + done.
Defined.

Lemma run_leaves_no_transaction_open_witness :
  let w := initial_world mixed_directory in
  pending (db w) = [] ∧
  pending (db (process_files (env := constrained) (Some Connection)
                             false w).2) = [].
Proof.
  intros w. split; [reflexivity|].
  exact (proj1 (run_leaves_no_transaction_open (env := constrained)
                  (Some Connection) false w eq_refl)).
Defined.

(** The run is aborted by the header of [9_1.csv]; the connection is
    closed all the same. *)
Lemma main_closes_the_connection_witness :
  let w := initial_world mixed_directory in
  (main (env := reliable) "data" false w).1 =
    Raise (ValueError_columns "9_1.csv") ∧
  ∃ out, stdout (main (env := reliable) "data" false w).2 =
           out ++ [ConnectionClosed].
Proof.
  intros w.
  destruct (main_closes_the_connection (env := reliable) "data" w Connection
              eq_refl eq_refl) as (Hres & _ & _ & _ & Hout).
  split.
  - rewrite Hres. by vm_compute.
  - eexists. exact Hout.
Defined.

Lemma get_db_connection_Ok_witness :
  Config.get_db_connection (env := reliable) sample_connect sample_environ
    = Ok Connection ∧
  ∃ port, ascii_int "5432" = Some port.
Proof.
  assert (Config.get_db_connection (env := reliable) sample_connect
            sample_environ = Ok Connection) as Hconn by by vm_compute.
  split; [exact Hconn|].
  destruct (get_db_connection_Ok (env := reliable) sample_connect
              sample_environ Connection Hconn)
    as (port & dbname & user & password & _ & _ & _ & _ & _ & _ & Hport & _).
  exists port. exact Hport.
Defined.

Lemma generated_name_round_trip_witness :
  csv_file_name 3 12 = "3_12.csv" ∧
  FILENAME_PATTERN_match (env := reliable) (csv_file_name 3 12) = Some ("3", "12") ∧
  int_digits (env := reliable) (str 12) = 12%Z.
Proof.
  split; [by vm_compute|].
  destruct (generated_name_round_trip (env := reliable) 3 12 []) as (Hm & _ & Hc & _);
    [lia|lia|].
  split; [by rewrite Hm|exact Hc].
Defined.

Lemma negative_numbers_are_not_accepted_witness :
  csv_file_name 3 (-1) = "3_-1.csv" ∧
  FILENAME_PATTERN_match (env := reliable) (csv_file_name 3 (-1)) = None.
Proof.
  split; [by vm_compute|].
  apply (negative_numbers_are_not_accepted (env := reliable)). right. lia.
Defined.
